(** * killer: terminating processes by identifier or by name

    A shallow embedding of [src/killer.ts] (the command-line entry point;
    [bin/killer.ts] holds the same two helpers with a fixed demo call).

    - JavaScript strings are sequences of UTF-16 code units, numbers are the
      integer-valued doubles the program can produce;
    - the operating system is an oracle answering [exec] calls and threading
      an abstract world;
    - promises, [await] and [try]/[catch] become a small state, trace and
      exception monad. *)

From Stdlib Require Import String Ascii.
From Stdlib Require Import List ZArith NArith Bool Lia.
From Stdlib Require Import Floats.SpecFloat.
Import ListNotations.

Set Implicit Arguments.
Local Open Scope Z_scope.

(** ** JavaScript strings *)

Module JsString.

(** A UTF-16 code unit. *)
Definition char := N.
Definition jsstring := list char.

(** ASCII literals of the source, as code units. *)
Definition js (s : String.string) : jsstring :=
  map Ascii.N_of_ascii (String.list_ascii_of_string s).
Arguments js s%_string.

Definition LF : char := 10%N.
Definition QUOTE : char := 34%N.
Definition COMMA : char := 44%N.
Definition PLUS : char := 43%N.
Definition MINUS : char := 45%N.

(** [\d] without the unicode flag: [0-9]. *)
Definition is_digit (c : char) : bool := ((48 <=? c) && (c <=? 57))%N.

Definition digit_value (c : char) : Z := Z.of_N (c - 48).

(** WhiteSpace and LineTerminator code points, the characters removed by
    [String.prototype.trim] and skipped by [parseInt]. *)
Definition is_space (c : char) : bool :=
  ((9 <=? c) && (c <=? 13)            (* TAB LF VT FF CR *)
   || (c =? 32) || (c =? 160) || (c =? 5760)
   || (8192 <=? c) && (c <=? 8202)    (* U+2000 .. U+200A *)
   || (c =? 8232) || (c =? 8233)      (* LS PS *)
   || (c =? 8239) || (c =? 8287) || (c =? 12288)
   || (c =? 65279))%N.                (* BOM *)

Fixpoint trimStart (s : jsstring) : jsstring :=
  match s with
  | c :: s' => if is_space c then trimStart s' else s
  | [] => []
  end.

Definition trimEnd (s : jsstring) : jsstring := rev (trimStart (rev s)).

(** [s.trim()] *)
Definition trim (s : jsstring) : jsstring := trimEnd (trimStart s).

(** [s.split(LF)]: never empty, the empty string gives one empty piece. *)
Fixpoint split_lines (s : jsstring) : list jsstring :=
  match s with
  | [] => [[]]
  | c :: s' =>
      if (c =? LF)%N then [] :: split_lines s'
      else match split_lines s' with
           | l :: ls => (c :: l) :: ls
           | [] => [[c]]
           end
  end.

(** [a.slice(1)] *)
Definition slice1 {A} (a : list A) : list A := tl a.

(** The longest prefix of decimal digits, and what follows it. *)
Fixpoint span_digits (s : jsstring) : jsstring * jsstring :=
  match s with
  | c :: s' =>
      if is_digit c then let (d, r) := span_digits s' in (c :: d, r)
      else ([], s)
  | [] => ([], [])
  end.

(** The mathematical value of a digit string in radix 10. *)
Definition decimal (ds : jsstring) : Z :=
  fold_left (fun acc c => 10 * acc + digit_value c) ds 0.

Definition all_digits (s : jsstring) : bool := forallb is_digit s.

End JsString.
Export JsString.
Arguments js s%_string.

(** ** JavaScript numbers *)

Module JsNumber.

(** The Number values the program can build: they all come from [Number]
    on a digit string or from [parseInt], hence are NaN, an infinity, a
    signed zero or an integer-valued double. [Int 0] is [+0]. *)
Inductive number : Type :=
| NaN
| Infinity (negative : bool)
| NegZero
| Int (z : Z).

(** [Number.isNaN] and the global [isNaN] agree on numbers. *)
Definition isNaN (n : number) : bool :=
  match n with NaN => true | _ => false end.

(** The magnitude of the double nearest to a positive integer [a]
    (round to nearest, ties to even, 53 significant bits); [None] when
    it rounds to [2^1024], i.e. overflows. *)
Definition round_magnitude (a : Z) : option Z :=
  let e := Z.log2 a - 52 in
  if e <=? 0 then Some a
  else
    let q := a / 2 ^ e in
    let r := a mod 2 ^ e in
    let half := 2 ^ (e - 1) in
    let q' := if r <? half then q
              else if half <? r then q + 1
              else if Z.even q then q else q + 1 in
    let m := q' * 2 ^ e in
    if 2 ^ 1024 <=? m then None else Some m.

(** The Number value for a non-zero mathematical integer. *)
Definition of_nonzero (z : Z) : number :=
  match round_magnitude (Z.abs z) with
  | Some m => Int (Z.sgn z * m)
  | None => Infinity (z <? 0)
  end.

(** The Number value for the mathematical integer [z]. *)
Definition of_Z (z : Z) : number :=
  if z =? 0 then Int 0 else of_nonzero z.

(** [Number(s)] for [s] a non-empty string of decimal digits, the only
    strings [main] converts: the Number value for the decimal literal,
    correctly rounded as the engines do at every length. *)
Definition Number_of_digits (s : jsstring) : number := of_Z (decimal s).

(** [parseInt(s, 10)]: skip leading white space, read an optional sign,
    then the longest run of decimal digits; NaN when that run is empty. *)
Definition parseInt10 (s : jsstring) : number :=
  let s1 := trimStart s in
  let '(negative, s2) :=
    match s1 with
    | c :: r => if (c =? MINUS)%N then (true, r)
                else if (c =? PLUS)%N then (false, r)
                else (false, s1)
    | [] => (false, s1)
    end in
  let (z, _) := span_digits s2 in
  match z with
  | [] => NaN
  | _ =>
      let mathInt := decimal z in
      if mathInt =? 0 then (if negative then NegZero else Int 0)
      else of_nonzero (if negative then - mathInt else mathInt)
  end.

(** The same rounding through the Standard Library's IEEE 754 model. *)
Definition binary64_of_Z (z : Z) : spec_float :=
  binary_normalize 53 1024 z 0 false.

End JsNumber.
Export JsNumber.

(** ** Regular expressions

    The fragment of JavaScript regular expressions used by the program:
    sequences of single-character atoms, greedy [+] over an atom (capturing
    or not) and the anchors, matched by backtracking. *)

Module Regex.

Inductive atom : Type :=
| Chr (c : char)        (* a literal character *)
| NotChr (c : char)     (* [^c] *)
| Digit.                (* \d *)

Inductive node : Type :=
| Bol                   (* ^ *)
| Eol                   (* $ *)
| One (a : atom)        (* a *)
| Many1 (a : atom)      (* a+ *)
| Group1 (a : atom).    (* (a+) *)

Definition regex := list node.

Definition accepts (a : atom) (c : char) : bool :=
  match a with
  | Chr x => (c =? x)%N
  | NotChr x => negb (c =? x)%N
  | Digit => is_digit c
  end.

(** How many leading characters of [s] the atom accepts. *)
Fixpoint run_length (a : atom) (s : jsstring) : nat :=
  match s with
  | c :: s' => if accepts a c then S (run_length a s') else O
  | [] => O
  end.

(** Greedy choice with backtracking: [f k], else [f (k-1)], ..., [f 1]. *)
Fixpoint backtrack {A} (k : nat) (f : nat -> option A) : option A :=
  match k with
  | O => None
  | S k' => match f k with
            | Some x => Some x
            | None => backtrack k' f
            end
  end.

(** Match [r] at the head of [s]; [bol] says whether [s] starts at index 0
    of the input. The result holds the captures and the unread suffix. *)
Fixpoint run (r : regex) (bol : bool) (s : jsstring) {struct r}
  : option (list jsstring * jsstring) :=
  match r with
  | [] => Some ([], s)
  | Bol :: r' => if bol then run r' bol s else None
  | Eol :: r' => match s with [] => run r' bol s | _ :: _ => None end
  | One a :: r' =>
      match s with
      | c :: s' => if accepts a c then run r' false s' else None
      | [] => None
      end
  | Many1 a :: r' =>
      backtrack (run_length a s) (fun k => run r' false (skipn k s))
  | Group1 a :: r' =>
      backtrack (run_length a s)
        (fun k => match run r' false (skipn k s) with
                  | Some (gs, rest) => Some (firstn k s :: gs, rest)
                  | None => None
                  end)
  end.

(** The leftmost match: the whole match followed by the captures, as in
    the array returned by [RegExp.prototype.exec]. *)
Fixpoint search (r : regex) (bol : bool) (s : jsstring)
  : option (list jsstring) :=
  match run r bol s with
  | Some (gs, rest) =>
      Some (firstn (List.length s - List.length rest) s :: gs)
  | None =>
      match s with
      | [] => None
      | _ :: s' => search r false s'
      end
  end.

(** [s.match(r)] for a regular expression without the [g] flag. *)
Definition str_match (s : jsstring) (r : regex) : option (list jsstring) :=
  search r true s.

(** [r.test(s)] *)
Definition test (r : regex) (s : jsstring) : bool :=
  match search r true s with Some _ => true | None => false end.

End Regex.
Export Regex.

(** [/^\d+$/] *)
Definition PID_TOKEN : regex := [Bol; Many1 Digit; Eol].

(** The pattern of [findPidByProcessName]: three quoted fields separated by
    commas, each field a capture of one or more characters other than the
    quotation mark, written here with Q for that mark:
    [/Q([^Q]+)Q,Q([^Q]+)Q,Q([^Q]+)Q/] *)
Definition CSV_ROW : regex :=
  [One (Chr QUOTE); Group1 (NotChr QUOTE); One (Chr QUOTE); One (Chr COMMA);
   One (Chr QUOTE); Group1 (NotChr QUOTE); One (Chr QUOTE); One (Chr COMMA);
   One (Chr QUOTE); Group1 (NotChr QUOTE); One (Chr QUOTE)].

(** The quotation mark, for building rows in examples. *)
Definition q : jsstring := [QUOTE].

(** ** The operating system and the process *)

Module Os.

(** The values of [os.platform()]. *)
Inductive platform : Type :=
| aix | android | darwin | freebsd | linux | openbsd | sunos | win32.

Definition is_win32 (p : platform) : bool :=
  match p with win32 => true | _ => false end.

(** The command lines the program builds, kept as the template chosen and
    the value spliced into it:
    - [tasklist /FI] with the filter [IMAGENAME eq ${processName}*] and
      [/FO CSV]
    - [pgrep -f ${processName}]
    - [taskkill /PID ${pid} /F]
    - [kill -9 ${pid}] *)
Inductive command : Type :=
| Tasklist (processName : jsstring)
| Pgrep (processName : jsstring)
| Taskkill (pid : number)
| Kill9 (pid : number).

(** [error.code] of a failed [exec]: the exit code of the command, the
    name of a system error, or [null] when a signal ended the command. *)
Inductive error_code : Type :=
| ExitCode (n : Z)
| ErrName (s : jsstring)
| NoCode.

(** The error object [exec] hands to its callback. *)
Record ExecException : Type := {
  code : error_code;
  signal : option jsstring;
  message : jsstring
}.

(** What the callback of [exec] receives: [(error, stdout)]. *)
Inductive exec_result : Type :=
| ExecError (error : ExecException)
| ExecOutput (stdout : jsstring).

(** [error.code === 1] *)
Definition code_is_1 (e : ExecException) : bool :=
  match code e with ExitCode 1 => true | _ => false end.

Inductive stream : Type := Log | Warn | Error.

(** The lines written to the console, by the call that writes them. *)
Inductive message_line : Type :=
| Usage
| Killing (pid : number)
| Killed (pid : number)
| NotFound (arg : jsstring)
| Found (arg : jsstring) (pids : list number)
| CannotKill (pid : number) (e : ExecException)
| Failed (arg : jsstring) (err : ExecException)
| TopLevel (e : ExecException).

Inductive event : Type :=
| Exec (c : command) (r : exec_result)
| Console (s : stream) (m : message_line).

End Os.
Export Os.

(** ** Parsing the listings *)

(** The loop body over the rows of [tasklist]: [pids.push(pid)] when the row
    matches, its second capture is truthy and parses. *)
Definition push_tasklist_row (pids : list number) (line : jsstring)
  : list number :=
  match str_match line CSV_ROW with
  | Some m =>
      match nth_error m 2 with
      | Some ((_ :: _) as field) =>
          let pid := parseInt10 field in
          if negb (isNaN pid) then pids ++ [pid] else pids
      | _ => pids
      end
  | None => pids
  end.

(** The Windows branch: drop the title row, then scan the rows. *)
Definition parse_tasklist (stdout : jsstring) : list number :=
  let lines := slice1 (split_lines (trim stdout)) in
  fold_left push_tasklist_row lines [].

(** The callback of [forEach] over the lines of [pgrep]. *)
Definition push_pgrep_line (pids : list number) (line : jsstring)
  : list number :=
  let pid := parseInt10 line in
  if negb (isNaN pid) then pids ++ [pid] else pids.

(** The POSIX branch: one identifier per line. *)
Definition parse_pgrep (stdout : jsstring) : list number :=
  fold_left push_pgrep_line (split_lines (trim stdout)) [].

(** ** The program *)

Section Killer.

(** The state of the machine outside the program. *)
Variable World : Type.

(** [os.platform()] *)
Variable platform_ : platform.

(** [exec]: running a command answers the callback and changes the world. *)
Variable exec : command -> World -> exec_result * World.

(** The state the program itself changes: [process.exitCode], undefined
    until assigned. *)
Record Process : Type := {
  world : World;
  exitCode : option Z
}.

(** How a computation ends: normally, or with an exception (a rejected
    promise once awaited). *)
Inductive completion (A : Type) : Type :=
| Normal (a : A)
| Throw (e : ExecException).
Arguments Throw {A} e.

Record Run (A : Type) : Type := {
  outcome : completion A;
  after : Process;
  trace : list event
}.

Definition M (A : Type) : Type := Process -> Run A.

Definition ret {A} (a : A) : M A :=
  fun p => {| outcome := Normal a; after := p; trace := [] |}.

Definition throw {A} (e : ExecException) : M A :=
  fun p => {| outcome := Throw e; after := p; trace := [] |}.

Definition bind {A B} (m : M A) (k : A -> M B) : M B :=
  fun p =>
    let r := m p in
    match outcome r with
    | Normal a =>
        let r' := k a (after r) in
        {| outcome := outcome r'; after := after r';
           trace := trace r ++ trace r' |}
    | Throw e =>
        {| outcome := Throw e; after := after r; trace := trace r |}
    end.

(** [try { m } catch (e) { handler e }] *)
Definition try_catch {A} (m : M A) (handler : ExecException -> M A) : M A :=
  fun p =>
    let r := m p in
    match outcome r with
    | Normal a => r
    | Throw e =>
        let r' := handler e (after r) in
        {| outcome := outcome r'; after := after r';
           trace := trace r ++ trace r' |}
    end.

Notation "x <- m ;; k" := (bind m (fun x => k))
  (at level 100, m at next level, right associativity).
Notation "m ;; k" := (bind m (fun _ => k))
  (at level 100, right associativity).

(** [for (const x of xs) { body x }] *)
Fixpoint for_of {A} (xs : list A) (body : A -> M unit) : M unit :=
  match xs with
  | [] => ret tt
  | x :: xs' => body x ;; for_of xs' body
  end.

Definition console (s : stream) (m : message_line) : M unit :=
  fun p => {| outcome := Normal tt; after := p; trace := [Console s m] |}.

Definition set_exitCode (c : Z) : M unit :=
  fun p => {| outcome := Normal tt;
              after := {| world := world p; exitCode := Some c |};
              trace := [] |}.

(** One [exec] call, awaited through its callback. *)
Definition exec_ (c : command) : M exec_result :=
  fun p =>
    let (r, w) := exec c (world p) in
    {| outcome := Normal r;
       after := {| world := w; exitCode := exitCode p |};
       trace := [Exec c r] |}.

Definition list_command (processName : jsstring) : command :=
  if is_win32 platform_ then Tasklist processName else Pgrep processName.

Definition kill_command (pid : number) : command :=
  if is_win32 platform_ then Taskkill pid else Kill9 pid.

(** [findPidByProcessName], awaited: the promise resolves to the array or
    rejects with the error of [exec]. *)
Definition findPidByProcessName (processName : jsstring) : M (list number) :=
  r <- exec_ (list_command processName) ;;
  match r with
  | ExecError error =>
      if negb (is_win32 platform_) && code_is_1 error then ret []
      else throw error
  | ExecOutput stdout =>
      ret (if is_win32 platform_ then parse_tasklist stdout
           else parse_pgrep stdout)
  end.

(** [killProcess], awaited. *)
Definition killProcess (pid : number) : M unit :=
  r <- exec_ (kill_command pid) ;;
  match r with
  | ExecError error => throw error
  | ExecOutput _ => ret tt
  end.

(** The body of the inner loop of [main]: one identifier, with its own
    [try]/[catch]. *)
Definition kill_one (pid : number) : M unit :=
  try_catch
    (killProcess pid ;; console Log (Killed pid))
    (fun e => console Error (CannotKill pid e)).

(** The inner loop of [main] over the identifiers found for a name. *)
Definition kill_each (pids : list number) : M unit :=
  for_of pids kill_one.

(** The statements inside the [try] of the outer loop; [continue] ends
    the iteration. *)
Definition try_arg (arg : jsstring) : M unit :=
  if test PID_TOKEN arg then
    let pid := Number_of_digits arg in
    console Log (Killing pid) ;;
    killProcess pid ;;
    console Log (Killed pid)
  else
    pids <- findPidByProcessName arg ;;
    if (List.length pids =? 0)%nat then console Warn (NotFound arg)
    else
      console Log (Found arg pids) ;;
      kill_each pids.

(** One iteration of the outer loop. *)
Definition handle_arg (arg : jsstring) : M unit :=
  try_catch (try_arg arg) (fun err => console Error (Failed arg err)).

(** [main], given [process.argv]. *)
Definition main (argv : list jsstring) : M unit :=
  let args := skipn 2 argv in
  if (List.length args =? 0)%nat then
    console Error Usage ;;
    set_exitCode 2
  else
    for_of args handle_arg.

(** The process as the script starts. *)
Definition start (w : World) : Process :=
  {| world := w; exitCode := None |}.

(** What a run of the script leaves behind. *)
Record Exit : Type := {
  status : Z;
  output : list event;
  final : World
}.

(** The script: [main().catch(...)] with [process.exit(1)] in the handler;
    otherwise the process ends with [process.exitCode], 0 when it was
    never assigned. *)
Definition script (argv : list jsstring) (w : World) : Exit :=
  let r := main argv (start w) in
  match outcome r with
  | Normal _ =>
      {| status := match exitCode (after r) with Some c => c | None => 0 end;
         output := trace r;
         final := world (after r) |}
  | Throw e =>
      {| status := 1;
         output := trace r ++ [Console Error (TopLevel e)];
         final := world (after r) |}
  end.

(** *** Observations on traces *)

(** The identifiers handed to [killProcess], in order: each call runs
    exactly one termination command. *)
Definition kills (t : list event) : list number :=
  flat_map (fun ev => match ev with
                      | Exec (Taskkill pid) _ | Exec (Kill9 pid) _ => [pid]
                      | _ => []
                      end) t.

(** The names handed to [findPidByProcessName], in order: each call runs
    exactly one listing command. *)
Definition lookups (t : list event) : list jsstring :=
  flat_map (fun ev => match ev with
                      | Exec (Tasklist n) _ | Exec (Pgrep n) _ => [n]
                      | _ => []
                      end) t.

(** Every command run. *)
Definition commands (t : list event) : list command :=
  flat_map (fun ev => match ev with Exec c _ => [c] | _ => [] end) t.

(** *** The identifiers a run owes an attempt

    The identifiers of one token, read in the state in which the loop
    reaches it: the token itself when it is numeric, else what the lookup
    resolves to (nothing when the lookup fails). *)
Definition ids_of (arg : jsstring) (p : Process) : list number :=
  if test PID_TOKEN arg then [Number_of_digits arg]
  else match outcome (findPidByProcessName arg p) with
       | Normal pids => pids
       | Throw _ => []
       end.

(** The identifiers of every token in turn, each token read in the state
    its predecessors left. *)
Fixpoint planned_kills (args : list jsstring) (p : Process) : list number :=
  match args with
  | [] => []
  | arg :: rest =>
      ids_of arg p ++ planned_kills rest (after (handle_arg arg p))
  end.

(** *** The demonstration script

    [bin/killer.ts] holds the same [findPidByProcessName] and [killProcess]
    (it tests the capture with [&&] and the number with the global [isNaN],
    which agree with the forms above) and, in place of [main], one
    immediately invoked function on a fixed name. Its loop has no
    [try]/[catch] of its own. *)
Definition DEMO_NAME : jsstring := js "Wechat.exe".

(** The body of the loop of the demonstration. *)
Definition kill_and_log (pid : number) : M unit :=
  killProcess pid ;;
  console Log (Killed pid).

Definition demo : M unit :=
  try_catch
    (let processName := DEMO_NAME in
     pids <- findPidByProcessName processName ;;
     if (List.length pids =? 0)%nat then console Log (NotFound processName)
     else
       console Log (Found processName pids) ;;
       for_of pids kill_and_log)
    (fun error => console Error (TopLevel error)).

End Killer.

Arguments Throw {A} e.
Arguments Normal {A} a.


(** ** Reading integers: the shape of a line *)

Definition all_space (s : jsstring) : bool := forallb is_space s.

(** An optional sign. *)
Definition is_sign (s : jsstring) : Prop :=
  s = [] \/ s = [PLUS] \/ s = [MINUS].

Definition starts_with_digit (s : jsstring) : bool :=
  match s with c :: _ => is_digit c | [] => false end.

(** A line that begins, after white space and an optional sign, with a
    decimal digit. *)
Definition numeric_prefix (line : jsstring) : Prop :=
  exists ws sg d rest,
    line = ws ++ sg ++ d :: rest /\
    all_space ws = true /\ is_sign sg /\ is_digit d = true.

(** What [parseInt] makes of a sign and a run of digits. *)
Definition signed_value (sg ds : jsstring) : number :=
  if decimal ds =? 0
  then match sg with
       | c :: _ => if (c =? MINUS)%N then NegZero else Int 0
       | [] => Int 0
       end
  else of_nonzero (match sg with
                   | c :: _ => if (c =? MINUS)%N then - decimal ds
                               else decimal ds
                   | [] => decimal ds
                   end).

(** What one parsed line adds to the array: nothing for NaN. *)
Definition keep (n : number) : list number :=
  if isNaN n then [] else [n].

(** ** The shape of a row of the table *)

Definition quote_free (f : jsstring) : bool :=
  forallb (fun c => negb (c =? QUOTE)%N) f.

(** The contents of a quoted field the pattern accepts: one or more
    characters, none of them the quotation mark. *)
Definition field (f : jsstring) : Prop := f <> [] /\ quote_free f = true.

Definition quoted (f : jsstring) : jsstring := QUOTE :: f ++ [QUOTE].

(** Three quoted fields separated by commas. *)
Definition three_fields (f1 f2 f3 : jsstring) : jsstring :=
  quoted f1 ++ COMMA :: quoted f2 ++ COMMA :: quoted f3.

(** [row] holds the three quoted fields [f1], [f2], [f3] after [pre]. *)
Definition shape_at (row pre f1 f2 f3 post : jsstring) : Prop :=
  row = pre ++ three_fields f1 f2 f3 ++ post /\
  field f1 /\ field f2 /\ field f3.


(** No occurrence of the shape starts before the one after [pre]. *)
Definition leftmost (row pre : jsstring) : Prop :=
  forall pre' f1 f2 f3 post,
    shape_at row pre' f1 f2 f3 post -> (List.length pre <= List.length pre')%nat.

(** What one row of the table adds to the array. *)
Definition row_ids (row : jsstring) : list number :=
  push_tasklist_row [] row.

(** ** The claims read literally *)

(** A numeric line, read as a line of decimal digits only. *)
Definition numeric_line (line : jsstring) : bool :=
  negb (Nat.eqb (List.length line) 0) && all_digits line.

(** The identifiers of a listing when every line that is not numeric is
    skipped and each numeric line gives its integer. *)
Definition ids_of_numeric_lines (stdout : jsstring) : list number :=
  map (fun line => Int (decimal line))
      (filter numeric_line (split_lines stdout)).






(** ** Operating systems to run the program against *)

Definition exit_with (n : Z) : ExecException :=
  {| code := ExitCode n; signal := None; message := [] |}.

(** Every command succeeds and prints nothing. *)
Definition quiet (c : command) (w : unit) : exec_result * unit :=
  (ExecOutput [], w).

(** Every command fails with exit code [n]. *)
Definition failing (n : Z) (c : command) (w : unit) : exec_result * unit :=
  (ExecError (exit_with n), w).

(** Listings print [stdout]; terminations are refused with exit code 1. *)
Definition listing (stdout : jsstring) (c : command) (w : unit)
  : exec_result * unit :=
  match c with
  | Tasklist _ | Pgrep _ => (ExecOutput stdout, w)
  | Taskkill _ | Kill9 _ => (ExecError (exit_with 1), w)
  end.

(** A machine that counts the commands it ran: the listing of [chrome]
    prints two identifiers, every other listing finds nothing, and no
    process can be terminated. *)
Definition stubborn (c : command) (w : nat) : exec_result * nat :=
  match c with
  | Pgrep name =>
      if list_eq_dec N.eq_dec name (js "chrome")
      then (ExecOutput (js "100
200
"), S w)
      else (ExecError (exit_with 1), S w)
  | Tasklist _ => (ExecOutput [], S w)
  | Taskkill _ | Kill9 _ => (ExecError (exit_with 1), S w)
  end.


(** ** Reading a trace *)

Definition is_kill (c : command) : bool :=
  match c with Taskkill _ | Kill9 _ => true | Tasklist _ | Pgrep _ => false end.

(** The errors written to [console.error], in order. *)
Definition reported (t : list event) : list ExecException :=
  flat_map (fun ev => match ev with
                      | Console Error (CannotKill _ e)
                      | Console Error (Failed _ e)
                      | Console Error (TopLevel e) => [e]
                      | _ => []
                      end) t.

(** The one failure that is an answer: a listing that exits with 1 off
    Windows. *)
Definition swallowed (pf : platform) (c : command) (e : ExecException) : bool :=
  negb (is_kill c) && negb (is_win32 pf) && code_is_1 e.

(** The errors of the commands that failed, in order, but for the
    swallowed ones. *)
Definition surfaced (pf : platform) (t : list event) : list ExecException :=
  flat_map (fun ev => match ev with
                      | Exec c (ExecError e) =>
                          if swallowed pf c e then [] else [e]
                      | _ => []
                      end) t.

(** The identifiers announced as terminated on [console.log]. *)
Definition killed_lines (t : list event) : list number :=
  flat_map (fun ev => match ev with
                      | Console Log (Killed pid) => [pid]
                      | _ => []
                      end) t.

(** The identifiers whose termination command succeeded. *)
Definition succeeded (t : list event) : list number :=
  flat_map (fun ev => match ev with
                      | Exec (Taskkill pid) (ExecOutput _)
                      | Exec (Kill9 pid) (ExecOutput _) => [pid]
                      | _ => []
                      end) t.

(** The termination commands that failed, with their identifiers. *)
Definition refused (t : list event) : list number :=
  flat_map (fun ev => match ev with
                      | Exec (Taskkill pid) (ExecError _)
                      | Exec (Kill9 pid) (ExecError _) => [pid]
                      | _ => []
                      end) t.

(** The console tells what happened, no more and no less: the errors
    printed are those of the failed commands that count, and the
    identifiers announced as terminated are those whose command
    succeeded. *)
Definition faithful (pf : platform) (t : list event) : Prop :=
  reported t = surfaced pf t /\ killed_lines t = succeeded t.

(** ** The formats of the listings *)

(** The captures of a match, without the whole match before them. *)
Definition captures (o : option (list jsstring)) : option (list jsstring) :=
  match o with Some m => Some (tl m) | None => None end.

(** What [parseInt] makes of the digits it read, given the sign. *)
Definition read_signed (negative : bool) (z : jsstring) : number :=
  match z with
  | [] => NaN
  | _ :: _ =>
      if decimal z =? 0 then (if negative then NegZero else Int 0)
      else of_nonzero (if negative then - decimal z else decimal z)
  end.

(** The output of [pgrep]: one identifier per line, each line ended. *)
Definition pgrep_output (ids : list jsstring) : jsstring :=
  concat (map (fun d => d ++ [LF]) ids).

(** A row of the table of [tasklist]: the image name, the identifier, the
    session name, and what follows the third field up to the line end. *)
Record table_row : Type := {
  image : jsstring;
  pid_text : jsstring;
  session : jsstring;
  remainder : jsstring
}.

Definition render_row (r : table_row) : jsstring :=
  three_fields (image r) (pid_text r) (session r) ++ remainder r.

Definition well_formed_row (r : table_row) : Prop :=
  field (image r) /\ field (session r) /\
  pid_text r <> [] /\ all_digits (pid_text r) = true /\
  ~ In LF (render_row r).

(** The output of [tasklist /FO CSV]: white space, the title row, the rows,
    each after a line feed, and white space. *)
Definition tasklist_output (lead header : jsstring) (rows : list table_row)
                           (trail : jsstring) : jsstring :=
  lead ++ header ++ concat (map (fun r => LF :: render_row r) rows) ++ trail.

(** ** Sample listings *)

(** The title row of [tasklist /FO CSV] after its first quotation mark. *)
Definition TITLE_REST : jsstring :=
  js "Image Name" ++ q ++ js "," ++ q ++ js "PID" ++ q ++ js ","
    ++ q ++ js "Session Name" ++ q ++ js "," ++ q ++ js "Session#" ++ q
    ++ js "," ++ q ++ js "Mem Usage" ++ q ++ [13%N].

(** Two rows, each with its last two fields and a carriage return. *)
Definition sample_rows : list table_row :=
  [ {| image := js "notepad.exe"; pid_text := js "100";
       session := js "Console";
       remainder := js "," ++ q ++ js "1" ++ q ++ js "," ++ q
                      ++ js "14,000 K" ++ q ++ [13%N] |};
    {| image := js "notepad.exe"; pid_text := js "200";
       session := js "Console";
       remainder := js "," ++ q ++ js "1" ++ q ++ js "," ++ q
                      ++ js "9,000 K" ++ q ++ [13%N] |} ].

(** The notice [tasklist] prints when no task matches the filter. *)
Definition NOTICE : jsstring :=
  js "INFO: No tasks are running which match the specified criteria.".

(** ** Checks of the definitions on concrete inputs *)

Example of_Z_small : of_Z 1234 = Int 1234.
Proof. reflexivity. Qed.

Example of_Z_tie_even : of_Z (2 ^ 53 + 1) = Int (2 ^ 53).
Proof. vm_compute. reflexivity. Qed.

Example of_Z_tie_up : of_Z (2 ^ 53 + 3) = Int (2 ^ 53 + 4).
Proof. vm_compute. reflexivity. Qed.

Example of_Z_overflow : of_Z (2 ^ 1024) = Infinity false.
Proof. vm_compute. reflexivity. Qed.

Example of_Z_max : of_Z (2 ^ 1024 - 2 ^ 970 - 1) = Int (2 ^ 1024 - 2 ^ 971).
Proof. vm_compute. reflexivity. Qed.

Example of_Z_agrees_binary64 :
  forallb (fun z => match of_Z z, binary64_of_Z z with
                    | Int m, S754_finite s p e =>
                        let v := (if s then -1 else 1) * Zpos p in
                        if e <? 0 then m * 2 ^ (- e) =? v else m =? v * 2 ^ e
                    | Infinity s, S754_infinity s' => Bool.eqb s s'
                    | Int 0, S754_zero false => true
                    | _, _ => false
                    end)
    ([1; 1234; 10 ^ 20 + 1; 10 ^ 23; - (10 ^ 23); 2 ^ 1024 - 2 ^ 970 - 1;
      2 ^ 1024 - 2 ^ 970; 10 ^ 400; - (10 ^ 400)]
     ++ flat_map (fun k => map (fun j => 2 ^ Z.of_nat k + j)
                             [-5; -4; -3; -2; -1; 0; 1; 2; 3; 4; 5; 6; 7])
                 (seq 50 30)
     ++ map (fun k => 10 ^ Z.of_nat k + 7) (seq 1 60)
     ++ map (fun k => - (3 ^ Z.of_nat k)) (seq 1 80)) = true.
Proof. vm_compute. reflexivity. Qed.

Example parseInt_examples :
  map parseInt10 [js "1234"; js "  42"; js "12abc"; js "-5"; js "+7";
                  js "abc"; js ""; js "-0"; js "-"; js "007"]
  = [Int 1234; Int 42; Int 12; Int (-5); Int 7; NaN; NaN; NegZero; NaN; Int 7].
Proof. reflexivity. Qed.

Example trim_split_example :
  split_lines (trim (js " 12
34
")) = [js "12"; js "34"].
Proof. reflexivity. Qed.

Example test_examples :
  map (test PID_TOKEN) [js "1234"; js "0"; js "007"; js ""; js "12a"; js "a12";
                        js "-1"; js " 1"; js "1
"]
  = [true; true; true; false; false; false; false; false; false].
Proof. reflexivity. Qed.

Example csv_example :
  str_match (q ++ js "a.exe" ++ q ++ js "," ++ q ++ js "42" ++ q ++ js ","
               ++ q ++ js "Console" ++ q ++ js "," ++ q ++ js "1" ++ q)
            CSV_ROW
  = Some [q ++ js "a.exe" ++ q ++ js "," ++ q ++ js "42" ++ q ++ js ","
            ++ q ++ js "Console" ++ q;
          js "a.exe"; js "42"; js "Console"].
Proof. reflexivity. Qed.

(** ** Facts about strings, numbers and patterns *)

Lemma backtrack_none A (f : nat -> option A) n :
  (forall k, (1 <= k <= n)%nat -> f k = None) -> backtrack n f = None.
Proof.
  induction n as [|n IH]; intros H; simpl; [reflexivity|].
  rewrite (H (S n)) by lia. apply IH. intros k Hk. apply H. lia.
Qed.

Lemma backtrack_first A (f : nat -> option A) n x :
  f (S n) = Some x -> backtrack (S n) f = Some x.
Proof. intros H. simpl. rewrite H. reflexivity. Qed.

Lemma run_length_le a s : (run_length a s <= List.length s)%nat.
Proof.
  induction s as [|c s IH]; simpl; [lia|].
  destruct (accepts a c); simpl; lia.
Qed.

Lemma run_length_full a s :
  forallb (accepts a) s = true -> run_length a s = List.length s.
Proof.
  induction s as [|c s IH]; simpl; [reflexivity|].
  intros H. apply andb_true_iff in H as [Hc Hs]. rewrite Hc, IH; auto.
Qed.

Lemma run_length_short a s :
  forallb (accepts a) s = false -> (run_length a s < List.length s)%nat.
Proof.
  induction s as [|c s IH]; simpl; [discriminate|].
  destruct (accepts a c); simpl; intros H; [apply IH in H|]; lia.
Qed.

Lemma skipn_nonempty A (s : list A) k :
  (k < List.length s)%nat -> skipn k s <> [].
Proof.
  intros Hk E. apply (f_equal (@List.length A)) in E.
  rewrite length_skipn in E. simpl in E. lia.
Qed.

Lemma search_bol_later r s : search (Bol :: r) false s = None.
Proof. induction s as [|c s IH]; simpl; auto. Qed.

(** The test of [main] is: not empty, and decimal digits only. *)
Lemma test_PID_TOKEN s :
  test PID_TOKEN s = negb (Nat.eqb (List.length s) 0) && all_digits s.
Proof.
  unfold test, PID_TOKEN.
  assert (Hrun : run [Bol; Many1 Digit; Eol] true s
                 = if negb (Nat.eqb (List.length s) 0) && all_digits s
                   then Some ([], []) else None).
  { cbn [run].
    destruct (all_digits s) eqn:Hd; unfold all_digits in Hd.
    - rewrite (run_length_full Digit s Hd).
      destruct s as [|c s]; [reflexivity|].
      cbn [List.length Nat.eqb negb andb].
      apply backtrack_first.
      change (S (List.length s)) with (List.length (c :: s)).
      rewrite skipn_all. reflexivity.
    - rewrite andb_false_r. apply backtrack_none. intros k Hk.
      pose proof (run_length_short Digit s Hd) as Hlt.
      destruct (skipn k s) eqn:E; [|reflexivity].
      exfalso. revert E. apply skipn_nonempty. lia. }
  destruct s as [|c s].
  - reflexivity.
  - cbn [search]. rewrite Hrun.
    destruct (negb (Nat.eqb (List.length (c :: s)) 0) && all_digits (c :: s));
      [reflexivity|].
    rewrite search_bol_later. reflexivity.
Qed.

Lemma test_PID_TOKEN_true s :
  test PID_TOKEN s = true <-> s <> [] /\ all_digits s = true.
Proof.
  rewrite test_PID_TOKEN, andb_true_iff.
  destruct s; simpl; split; intros [H1 H2]; split; auto; congruence.
Qed.


Lemma decimal_app ds c : decimal (ds ++ [c]) = 10 * decimal ds + digit_value c.
Proof. unfold decimal. rewrite fold_left_app. reflexivity. Qed.

Lemma digit_value_nonneg c : 0 <= digit_value c.
Proof. unfold digit_value. lia. Qed.

Lemma decimal_nonneg ds : 0 <= decimal ds.
Proof.
  induction ds as [|c ds IH] using rev_ind; [unfold decimal; simpl; lia|].
  rewrite decimal_app. pose proof (digit_value_nonneg c). lia.
Qed.

(** Integers up to [2^53] are doubles. *)
Lemma of_Z_exact z : 0 <= z <= 2 ^ 53 -> of_Z z = Int z.
Proof.
  intros [H0 H53]. unfold of_Z.
  destruct (Z.eqb_spec z 0) as [->|Hz]; [reflexivity|].
  unfold of_nonzero. rewrite Z.abs_eq, Z.sgn_pos by lia.
  assert (Hlog : Z.log2 z <= 53).
  { change 53 with (Z.log2 (2 ^ 53)). apply Z.log2_le_mono. exact H53. }
  destruct (Z.eq_dec z (2 ^ 53)) as [->|Hne].
  - vm_compute. reflexivity.
  - assert (Hlt : Z.log2 z < 53).
    { apply Z.log2_lt_pow2; lia. }
    unfold round_magnitude.
    destruct (Z.leb_spec (Z.log2 z - 52) 0); [|lia].
    f_equal. lia.
Qed.

Lemma of_nonzero_not_NaN z : isNaN (of_nonzero z) = false.
Proof. unfold of_nonzero. destruct (round_magnitude _); reflexivity. Qed.

Lemma Number_of_digits_exact s :
  decimal s <= 2 ^ 53 -> Number_of_digits s = Int (decimal s).
Proof.
  intros H. apply of_Z_exact. split; [apply decimal_nonneg | exact H].
Qed.


Lemma trimStart_spaces ws s :
  all_space ws = true -> trimStart (ws ++ s) = trimStart s.
Proof.
  induction ws as [|c ws IH]; simpl; [reflexivity|].
  intros H. apply andb_true_iff in H as [Hc Hws]. rewrite Hc. auto.
Qed.

Lemma trimStart_split s :
  exists ws, s = ws ++ trimStart s /\ all_space ws = true.
Proof.
  induction s as [|c s [ws [E Hws]]]; [exists []; auto|].
  simpl. destruct (is_space c) eqn:Hc.
  - exists (c :: ws). simpl. rewrite Hc, Hws. split; [congruence|reflexivity].
  - exists []. auto.
Qed.

Lemma digit_not_space c : is_digit c = true -> is_space c = false.
Proof.
  unfold is_digit, is_space. intros H.
  apply andb_true_iff in H as [H1 H2].
  apply N.leb_le in H1, H2.
  repeat match goal with
         | |- context [(?a <=? ?b)%N] => destruct (N.leb_spec a b)
         | |- context [(?a =? ?b)%N] => destruct (N.eqb_spec a b)
         end; simpl; try reflexivity; lia.
Qed.

Lemma digit_not_sign c :
  is_digit c = true -> (c =? MINUS)%N = false /\ (c =? PLUS)%N = false.
Proof.
  unfold is_digit, MINUS, PLUS. intros H.
  apply andb_true_iff in H as [H1 H2]. apply N.leb_le in H1, H2.
  split; apply N.eqb_neq; lia.
Qed.

Lemma span_digits_app ds rest :
  all_digits ds = true -> starts_with_digit rest = false ->
  span_digits (ds ++ rest) = (ds, rest).
Proof.
  induction ds as [|c ds IH]; simpl; intros Hd Hr.
  - destruct rest as [|c r]; [reflexivity|]. simpl in Hr |- *.
    rewrite Hr. reflexivity.
  - apply andb_true_iff in Hd as [Hc Hds]. rewrite Hc, IH; auto.
Qed.

Lemma span_digits_head d rest :
  is_digit d = true -> exists ds r, span_digits (d :: rest) = (d :: ds, r).
Proof.
  intros H. simpl. rewrite H. destruct (span_digits rest) as [ds r]. eauto.
Qed.

Lemma span_digits_nil s :
  starts_with_digit s = false -> fst (span_digits s) = [].
Proof.
  destruct s as [|c s]; simpl; [reflexivity|]. intros ->. reflexivity.
Qed.

(** The value [parseInt] reads: the sign applied to the leading digits. *)
Lemma parseInt10_value ws sg ds rest :
  all_space ws = true -> is_sign sg -> ds <> [] -> all_digits ds = true ->
  starts_with_digit rest = false ->
  parseInt10 (ws ++ sg ++ ds ++ rest) = signed_value sg ds.
Proof.
  intros Hws Hsg Hne Hds Hrest. unfold parseInt10, signed_value.
  rewrite trimStart_spaces by exact Hws.
  destruct ds as [|d ds]; [congruence|].
  simpl in Hds. apply andb_true_iff in Hds as [Hd Hds].
  pose proof (digit_not_space d Hd) as Hsp.
  destruct (digit_not_sign d Hd) as [Hm Hp].
  assert (Hspan : span_digits ((d :: ds) ++ rest) = (d :: ds, rest)).
  { apply span_digits_app; [simpl; rewrite Hd; exact Hds | exact Hrest]. }
  destruct Hsg as [->|[->| ->]].
  - cbn [app trimStart]. rewrite Hsp, Hm, Hp.
    change (d :: ds ++ rest) with ((d :: ds) ++ rest). rewrite Hspan.
    reflexivity.
  - cbn [app trimStart]. change (is_space PLUS) with false. cbv iota.
    change (PLUS =? MINUS)%N with false. rewrite N.eqb_refl. cbv iota.
    change (d :: ds ++ rest) with ((d :: ds) ++ rest). rewrite Hspan.
    reflexivity.
  - cbn [app trimStart]. change (is_space MINUS) with false. cbv iota.
    rewrite N.eqb_refl.
    change (d :: ds ++ rest) with ((d :: ds) ++ rest). rewrite Hspan.
    reflexivity.
Qed.

(** [parseInt] answers NaN exactly on the lines without a numeric prefix. *)
Lemma parseInt10_NaN line :
  isNaN (parseInt10 line) = false <-> numeric_prefix line.
Proof.
  split.
  - intros H. destruct (trimStart_split line) as [ws [E Hws]].
    unfold parseInt10 in H.
    assert (Hdig : forall neg s2,
               isNaN (let (z, _) := span_digits s2 in
                      match z with
                      | [] => NaN
                      | _ :: _ =>
                          if decimal z =? 0
                          then if neg : bool then NegZero else Int 0
                          else of_nonzero (if neg then - decimal z
                                           else decimal z)
                      end) = false ->
               exists d r, s2 = d :: r /\ is_digit d = true).
    { intros neg [|d r]; simpl; [discriminate|].
      destruct (is_digit d) eqn:Hd; [eauto | discriminate]. }
    destruct (trimStart line) as [|c r] eqn:Et.
    + apply (Hdig false []) in H as [d [r [E' _]]]. discriminate.
    + destruct (N.eqb_spec c MINUS) as [->|Hm].
      * apply (Hdig true r) in H as [d [r' [-> Hd]]].
        exists ws, [MINUS], d, r'. unfold is_sign. repeat split; auto.
      * destruct (N.eqb_spec c PLUS) as [->|Hp].
        -- apply (Hdig false r) in H as [d [r' [-> Hd]]].
           exists ws, [PLUS], d, r'. unfold is_sign. repeat split; auto.
        -- apply (Hdig false (c :: r)) in H as [d [r' [E' Hd]]].
           inversion E'; subst d r'.
           exists ws, [], c, r. unfold is_sign. repeat split; auto.
  - intros [ws [sg [d [rest [-> [Hws [Hsg Hd]]]]]]].
    unfold parseInt10. rewrite trimStart_spaces by exact Hws.
    pose proof (digit_not_space d Hd) as Hsp.
    destruct (digit_not_sign d Hd) as [Hm Hp].
    destruct (span_digits_head d rest Hd) as [ds [r Hspan]].
    assert (Hok : forall neg,
               isNaN (if decimal (d :: ds) =? 0
                      then if neg : bool then NegZero else Int 0
                      else of_nonzero (if neg then - decimal (d :: ds)
                                       else decimal (d :: ds))) = false).
    { intros neg. destruct (decimal (d :: ds) =? 0);
        [destruct neg; reflexivity | apply of_nonzero_not_NaN]. }
    destruct Hsg as [->|[->| ->]].
    + cbn [app trimStart]. rewrite Hsp, Hm, Hp, Hspan. apply (Hok false).
    + cbn [app trimStart]. change (is_space PLUS) with false. cbv iota.
      change (PLUS =? MINUS)%N with false. rewrite N.eqb_refl. cbv iota.
      rewrite Hspan. apply (Hok false).
    + cbn [app trimStart]. change (is_space MINUS) with false. cbv iota.
      rewrite N.eqb_refl. rewrite Hspan. apply (Hok true).
Qed.


(** Integers of magnitude up to [2^53] are doubles, whatever their sign. *)
Lemma of_nonzero_exact z :
  z <> 0 -> Z.abs z <= 2 ^ 53 -> of_nonzero z = Int z.
Proof.
  intros Hz Habs. unfold of_nonzero.
  assert (Hpos : 0 < Z.abs z) by lia.
  assert (Hr : round_magnitude (Z.abs z) = Some (Z.abs z)).
  { destruct (Z.eq_dec (Z.abs z) (2 ^ 53)) as [->|Hne];
      [vm_compute; reflexivity|].
    assert (Hlt : Z.log2 (Z.abs z) < 53) by (apply Z.log2_lt_pow2; lia).
    unfold round_magnitude.
    destruct (Z.leb_spec (Z.log2 (Z.abs z) - 52) 0); [reflexivity | lia]. }
  rewrite Hr. f_equal. rewrite Z.mul_comm. apply Z.abs_sgn.
Qed.

(** The sign a prefix of [parseInt] carries. *)
Lemma signed_value_exact sg ds :
  0 < decimal ds <= 2 ^ 53 ->
  signed_value sg ds
  = Int (match sg with
         | c :: _ => if (c =? MINUS)%N then - decimal ds else decimal ds
         | [] => decimal ds
         end).
Proof.
  intros [Hpos Hle]. unfold signed_value.
  destruct (Z.eqb_spec (decimal ds) 0); [lia|].
  apply of_nonzero_exact.
  - destruct sg as [|c sg]; [lia|]. destruct (c =? MINUS)%N; lia.
  - destruct sg as [|c sg]; [lia|]. destruct (c =? MINUS)%N; lia.
Qed.

Lemma signed_value_zero sg ds :
  decimal ds = 0 ->
  signed_value sg ds
  = match sg with
    | c :: _ => if (c =? MINUS)%N then NegZero else Int 0
    | [] => Int 0
    end.
Proof. intros H. unfold signed_value. rewrite H. reflexivity. Qed.

(** ** Facts about the two parsers *)

Lemma fold_left_push A B (f : B -> list A) (push : list A -> B -> list A) :
  (forall acc x, push acc x = acc ++ f x) ->
  forall l acc, fold_left push l acc = acc ++ flat_map f l.
Proof.
  intros Hpush l. induction l as [|x l IH]; intros acc; simpl.
  - rewrite app_nil_r. reflexivity.
  - rewrite IH, Hpush, <- app_assoc. reflexivity.
Qed.

Lemma push_pgrep_line_app pids line :
  push_pgrep_line pids line = pids ++ keep (parseInt10 line).
Proof.
  unfold push_pgrep_line, keep. destruct (isNaN (parseInt10 line)); simpl.
  - rewrite app_nil_r. reflexivity.
  - reflexivity.
Qed.

Lemma parse_pgrep_lines stdout :
  parse_pgrep stdout
  = flat_map (fun line => keep (parseInt10 line)) (split_lines (trim stdout)).
Proof.
  unfold parse_pgrep.
  rewrite (fold_left_push (fun line => keep (parseInt10 line)) push_pgrep_line
             push_pgrep_line_app).
  reflexivity.
Qed.

Lemma push_tasklist_row_app pids row :
  push_tasklist_row pids row = pids ++ row_ids row.
Proof.
  unfold row_ids, push_tasklist_row.
  destruct (str_match row CSV_ROW) as [m|]; [|rewrite app_nil_r; reflexivity].
  destruct (nth_error m 2) as [[|c f]|]; try (rewrite app_nil_r; reflexivity).
  destruct (isNaN (parseInt10 (c :: f))); simpl;
    [rewrite app_nil_r|]; reflexivity.
Qed.

Lemma parse_tasklist_rows stdout :
  parse_tasklist stdout
  = flat_map row_ids (slice1 (split_lines (trim stdout))).
Proof.
  unfold parse_tasklist.
  rewrite (fold_left_push row_ids push_tasklist_row push_tasklist_row_app).
  reflexivity.
Qed.

(** *** The pattern of a row *)

Lemma backtrack_some A (f : nat -> option A) n x :
  backtrack n f = Some x -> exists k, (1 <= k <= n)%nat /\ f k = Some x.
Proof.
  induction n as [|n IH]; simpl; [discriminate|].
  destruct (f (S n)) eqn:E.
  - intros H. inversion H; subst. exists (S n). split; [lia | exact E].
  - intros H. destruct (IH H) as [k [Hk Hf]]. exists k. split; [lia | exact Hf].
Qed.

Lemma run_length_firstn a s k :
  (k <= run_length a s)%nat -> forallb (accepts a) (firstn k s) = true.
Proof.
  revert k. induction s as [|c s IH]; intros k Hk.
  - rewrite firstn_nil. reflexivity.
  - destruct k as [|k]; [reflexivity|]. simpl in Hk |- *.
    destruct (accepts a c); [|lia]. simpl. apply IH. lia.
Qed.

Lemma run_length_stop a f c t :
  forallb (accepts a) f = true -> accepts a c = false ->
  run_length a (f ++ c :: t) = List.length f.
Proof.
  intros Hf Hc. induction f as [|d f IH]; simpl.
  - rewrite Hc. reflexivity.
  - simpl in Hf. apply andb_true_iff in Hf as [Hd Hf]. rewrite Hd, IH; auto.
Qed.

Lemma accepts_NotChr_QUOTE f :
  forallb (accepts (NotChr QUOTE)) f = quote_free f.
Proof. reflexivity. Qed.

(** A capture of characters other than the mark, closed by the mark, reads
    exactly up to the next mark: backtracking never finds another split. *)
Lemma run_field_complete r b f t :
  field f ->
  run (Group1 (NotChr QUOTE) :: One (Chr QUOTE) :: r) b (f ++ QUOTE :: t)
  = match run r false t with
    | Some (gs, rest) => Some (f :: gs, rest)
    | None => None
    end.
Proof.
  intros [Hne Hqf]. cbn [run].
  rewrite run_length_stop by (try reflexivity; exact Hqf).
  destruct f as [|c f]; [congruence|]. clear Hne.
  set (s := (c :: f) ++ QUOTE :: t).
  assert (Hfull : skipn (List.length (c :: f)) s = QUOTE :: t).
  { unfold s. rewrite skipn_app, skipn_all, Nat.sub_diag. reflexivity. }
  assert (Hfirst : firstn (List.length (c :: f)) s = c :: f).
  { unfold s. rewrite firstn_app, firstn_all, Nat.sub_diag, firstn_O, app_nil_r.
    reflexivity. }
  destruct (run r false t) as [[gs rest]|] eqn:Hr.
  - change (List.length (c :: f)) with (S (List.length f)).
    apply backtrack_first.
    change (S (List.length f)) with (List.length (c :: f)).
    rewrite Hfull, Hfirst. cbn [accepts]. rewrite N.eqb_refl, Hr. reflexivity.
  - apply backtrack_none. intros k Hk.
    destruct (Nat.eq_dec k (List.length (c :: f))) as [->|Hlt].
    + rewrite Hfull. cbn [accepts]. rewrite N.eqb_refl, Hr. reflexivity.
    + assert (Hk' : (k < List.length (c :: f))%nat) by lia.
      unfold s. rewrite skipn_app.
      destruct (skipn k (c :: f)) as [|d u] eqn:E.
      { exfalso. revert E. apply skipn_nonempty. exact Hk'. }
      assert (Hd : In d (c :: f)).
      { rewrite <- (firstn_skipn k (c :: f)). apply in_or_app. right.
        rewrite E. left. reflexivity. }
      unfold quote_free in Hqf. rewrite forallb_forall in Hqf.
      specialize (Hqf d Hd). cbn [app accepts].
      apply negb_true_iff in Hqf. rewrite Hqf. reflexivity.
Qed.

Lemma run_field_sound r b s gs rest :
  run (Group1 (NotChr QUOTE) :: One (Chr QUOTE) :: r) b s = Some (gs, rest) ->
  exists f gs' t,
    s = f ++ QUOTE :: t /\ field f /\ gs = f :: gs' /\
    run r false t = Some (gs', rest).
Proof.
  cbn [run]. intros H. apply backtrack_some in H as [k [Hk H]].
  destruct (skipn k s) as [|c t] eqn:Es; [discriminate|].
  cbn [accepts] in H. destruct (N.eqb_spec c QUOTE) as [->|]; [|discriminate].
  destruct (run r false t) as [[gs' rest']|] eqn:Hr; [|discriminate].
  inversion H; subst gs rest'. exists (firstn k s), gs', t.
  repeat split.
  - rewrite <- Es. symmetry. apply firstn_skipn.
  - intros E. apply (f_equal (@List.length char)) in E.
    rewrite length_firstn in E. pose proof (run_length_le (NotChr QUOTE) s).
    simpl in E. lia.
  - rewrite <- accepts_NotChr_QUOTE. apply run_length_firstn. lia.
  - exact Hr.
Qed.

Lemma run_One_hit c r b s :
  run (One (Chr c) :: r) b (c :: s) = run r false s.
Proof. cbn [run accepts]. rewrite N.eqb_refl. reflexivity. Qed.

Lemma run_One_inv c r b s x :
  run (One (Chr c) :: r) b s = Some x ->
  exists s', s = c :: s' /\ run r false s' = Some x.
Proof.
  cbn [run accepts]. destruct s as [|d s]; [discriminate|].
  destruct (N.eqb_spec d c) as [->|]; [|discriminate]. eauto.
Qed.

Lemma three_fields_app f1 f2 f3 post :
  three_fields f1 f2 f3 ++ post
  = QUOTE :: f1 ++ QUOTE :: COMMA :: QUOTE :: f2 ++ QUOTE :: COMMA
      :: QUOTE :: f3 ++ QUOTE :: post.
Proof.
  unfold three_fields, quoted. cbn [app].
  repeat (rewrite <- app_assoc; cbn [app]). reflexivity.
Qed.

(** The pattern reads three fields, whatever follows them. *)
Lemma run_CSV_ROW_complete b f1 f2 f3 post :
  field f1 -> field f2 -> field f3 ->
  run CSV_ROW b (three_fields f1 f2 f3 ++ post) = Some ([f1; f2; f3], post).
Proof.
  intros H1 H2 H3. rewrite three_fields_app. unfold CSV_ROW.
  rewrite run_One_hit, (run_field_complete _ _ _ H1).
  rewrite !run_One_hit, (run_field_complete _ _ _ H2).
  rewrite !run_One_hit, (run_field_complete _ _ _ H3).
  reflexivity.
Qed.

(** The pattern reads nothing else. *)
Lemma run_CSV_ROW_sound b s gs rest :
  run CSV_ROW b s = Some (gs, rest) ->
  exists f1 f2 f3,
    s = three_fields f1 f2 f3 ++ rest /\
    field f1 /\ field f2 /\ field f3 /\ gs = [f1; f2; f3].
Proof.
  unfold CSV_ROW. intros H.
  apply run_One_inv in H as [s1 [-> H]].
  apply run_field_sound in H as [f1 [g1 [t1 [-> [Hf1 [-> H]]]]]].
  apply run_One_inv in H as [s2 [-> H]].
  apply run_One_inv in H as [s3 [-> H]].
  apply run_field_sound in H as [f2 [g2 [t2 [-> [Hf2 [-> H]]]]]].
  apply run_One_inv in H as [s4 [-> H]].
  apply run_One_inv in H as [s5 [-> H]].
  apply run_field_sound in H as [f3 [g3 [t3 [-> [Hf3 [-> H]]]]]].
  cbn [run] in H. inversion H; subst g3 t3.
  exists f1, f2, f3. rewrite three_fields_app. auto 10.
Qed.

Lemma run_CSV_ROW_bol b s : run CSV_ROW b s = run CSV_ROW false s.
Proof. unfold CSV_ROW. destruct s; reflexivity. Qed.

(** *** The leftmost match *)

Lemma search_found r b pre s gs rest :
  (forall b' s', run r b' s' = run r false s') ->
  run r false s = Some (gs, rest) ->
  (forall p1 p2, pre = p1 ++ p2 -> p2 <> [] -> run r false (p2 ++ s) = None) ->
  exists whole, search r b (pre ++ s) = Some (whole :: gs).
Proof.
  intros Hb Hrun. revert b. induction pre as [|c pre IH]; intros b Hnone.
  - cbn [app]. destruct s as [|c s]; cbn [search]; rewrite Hb, Hrun; eauto.
  - cbn [app search]. rewrite Hb.
    assert (E : run r false ((c :: pre) ++ s) = None)
      by (apply (Hnone [] (c :: pre)); [reflexivity | discriminate]).
    cbn [app] in E. rewrite E.
    apply IH. intros p1 p2 -> Hp2.
    apply (Hnone (c :: p1) p2); [reflexivity | exact Hp2].
Qed.

Lemma search_none r b s :
  (forall b' s', run r b' s' = run r false s') ->
  (forall p t, s = p ++ t -> run r false t = None) ->
  search r b s = None.
Proof.
  intros Hb. revert b. induction s as [|c s IH]; intros b Hnone.
  - cbn [search]. rewrite Hb, (Hnone [] [] eq_refl). reflexivity.
  - cbn [search]. rewrite Hb, (Hnone [] (c :: s) eq_refl).
    apply IH. intros p t ->. apply (Hnone (c :: p) t). reflexivity.
Qed.

(** A row with the shape gives the second field of its first occurrence. *)
Lemma row_ids_shape row pre f1 f2 f3 post :
  shape_at row pre f1 f2 f3 post -> leftmost row pre ->
  row_ids row = keep (parseInt10 f2).
Proof.
  intros [-> [H1 [H2 H3]]] Hleft.
  assert (Hm : exists whole,
             str_match (pre ++ three_fields f1 f2 f3 ++ post) CSV_ROW
             = Some (whole :: [f1; f2; f3])).
  { unfold str_match.
    apply search_found with (rest := post).
    - apply run_CSV_ROW_bol.
    - apply run_CSV_ROW_complete; assumption.
    - intros p1 p2 -> Hp2.
      destruct (run CSV_ROW false (p2 ++ three_fields f1 f2 f3 ++ post))
        as [[gs rest]|] eqn:E; [exfalso | reflexivity].
      apply run_CSV_ROW_sound in E as [g1 [g2 [g3 [E [G1 [G2 [G3 _]]]]]]].
      assert (Hs : shape_at ((p1 ++ p2) ++ three_fields f1 f2 f3 ++ post)
                     p1 g1 g2 g3 rest).
      { split; [|auto]. rewrite <- app_assoc, E. reflexivity. }
      apply Hleft in Hs. rewrite length_app in Hs.
      destruct p2; [congruence | simpl in Hs; lia]. }
  destruct Hm as [whole Hm]. unfold row_ids, push_tasklist_row.
  rewrite Hm. cbn [nth_error]. destruct H2 as [Hne _].
  destruct f2 as [|c f2]; [congruence|]. unfold keep.
  destruct (isNaN (parseInt10 (c :: f2))); reflexivity.
Qed.


(** A row that begins with the three fields is read at its start. *)
Lemma leftmost_nil row : leftmost row [].
Proof. intros pre' f1 f2 f3 post _. simpl. lia. Qed.

(** *** What the search finds *)





(** ** Facts about the program *)

Section KillerFacts.

Variable World : Type.
Variable platform_ : platform.
Variable exec : command -> World -> exec_result * World.

Lemma kills_app t1 t2 : kills (t1 ++ t2) = kills t1 ++ kills t2.
Proof. apply flat_map_app. Qed.

Lemma lookups_app t1 t2 : lookups (t1 ++ t2) = lookups t1 ++ lookups t2.
Proof. apply flat_map_app. Qed.

Lemma is_win32_false : platform_ <> win32 -> is_win32 platform_ = false.
Proof. destruct platform_; simpl; congruence. Qed.

Lemma is_win32_true : platform_ = win32 -> is_win32 platform_ = true.
Proof. intros ->. reflexivity. Qed.

Lemma kills_kill_command pid r :
  kills [Exec (kill_command platform_ pid) r] = [pid].
Proof. unfold kill_command. destruct (is_win32 platform_); reflexivity. Qed.

Lemma lookups_kill_command pid r :
  lookups [Exec (kill_command platform_ pid) r] = [].
Proof. unfold kill_command. destruct (is_win32 platform_); reflexivity. Qed.

Lemma kills_list_command name r :
  kills [Exec (list_command platform_ name) r] = [].
Proof. unfold list_command. destruct (is_win32 platform_); reflexivity. Qed.

Lemma lookups_list_command name r :
  lookups [Exec (list_command platform_ name) r] = [name].
Proof. unfold list_command. destruct (is_win32 platform_); reflexivity. Qed.

(** Sequencing after a computation that ends normally. *)
Lemma bind_normal A B (m : M World A) (k : A -> M World B) p a :
  outcome (m p) = Normal a ->
  bind m k p = {| outcome := outcome (k a (after (m p)));
                  after := after (k a (after (m p)));
                  trace := trace (m p) ++ trace (k a (after (m p))) |}.
Proof. intros H. unfold bind. rewrite H. reflexivity. Qed.

Lemma bind_throw A B (m : M World A) (k : A -> M World B) p e :
  outcome (m p) = Throw e ->
  bind m k p = {| outcome := Throw e; after := after (m p);
                  trace := trace (m p) |}.
Proof. intros H. unfold bind. rewrite H. reflexivity. Qed.

(** [killProcess] runs one termination command and settles on its
    answer. *)
Lemma killProcess_run pid p :
  killProcess platform_ exec pid p
  = let (r, w) := exec (kill_command platform_ pid) (world p) in
    {| outcome := match r with
                  | ExecError error => Throw error
                  | ExecOutput _ => Normal tt
                  end;
       after := {| world := w; exitCode := exitCode p |};
       trace := [Exec (kill_command platform_ pid) r] |}.
Proof.
  unfold killProcess, bind, exec_.
  destruct (exec (kill_command platform_ pid) (world p)) as [[e|out] w];
    reflexivity.
Qed.

(** [findPidByProcessName] runs one listing command and settles on its
    answer. *)
Lemma findPidByProcessName_run name p :
  findPidByProcessName platform_ exec name p
  = let (r, w) := exec (list_command platform_ name) (world p) in
    {| outcome := match r with
                  | ExecError error =>
                      if negb (is_win32 platform_) && code_is_1 error
                      then Normal [] else Throw error
                  | ExecOutput stdout =>
                      Normal (if is_win32 platform_
                              then parse_tasklist stdout
                              else parse_pgrep stdout)
                  end;
       after := {| world := w; exitCode := exitCode p |};
       trace := [Exec (list_command platform_ name) r] |}.
Proof.
  unfold findPidByProcessName, bind, exec_.
  destruct (exec (list_command platform_ name) (world p)) as [[e|out] w];
    cbn; [|reflexivity].
  destruct (negb (is_win32 platform_) && code_is_1 e); reflexivity.
Qed.

Lemma findPidByProcessName_trace name p :
  trace (findPidByProcessName platform_ exec name p)
  = [Exec (list_command platform_ name)
          (fst (exec (list_command platform_ name) (world p)))].
Proof.
  rewrite findPidByProcessName_run.
  destruct (exec (list_command platform_ name) (world p)); reflexivity.
Qed.

Lemma findPidByProcessName_exitCode name p :
  exitCode (after (findPidByProcessName platform_ exec name p)) = exitCode p.
Proof.
  rewrite findPidByProcessName_run.
  destruct (exec (list_command platform_ name) (world p)); reflexivity.
Qed.

(** One identifier of the inner loop: always one attempt, never an
    exception. *)
Lemma kill_one_run pid p :
  outcome (kill_one platform_ exec pid p) = Normal tt /\
  kills (trace (kill_one platform_ exec pid p)) = [pid] /\
  lookups (trace (kill_one platform_ exec pid p)) = [] /\
  exitCode (after (kill_one platform_ exec pid p)) = exitCode p.
Proof.
  unfold kill_one, try_catch, bind. rewrite killProcess_run.
  destruct (exec (kill_command platform_ pid) (world p)) as [[e|out] w];
    cbn [outcome after trace console exitCode];
    rewrite ?kills_app, ?lookups_app, kills_kill_command,
      lookups_kill_command; auto.
Qed.

Lemma kill_each_run pids p :
  outcome (kill_each platform_ exec pids p) = Normal tt /\
  kills (trace (kill_each platform_ exec pids p)) = pids /\
  lookups (trace (kill_each platform_ exec pids p)) = [] /\
  exitCode (after (kill_each platform_ exec pids p)) = exitCode p.
Proof.
  unfold kill_each. revert p.
  induction pids as [|pid pids IH]; intros p; [cbn; auto|].
  cbn [for_of].
  destruct (kill_one_run pid p) as [Ho [Hk [Hl He]]].
  rewrite (bind_normal _ _ _ Ho). cbn [outcome after trace].
  destruct (IH (after (kill_one platform_ exec pid p))) as [Ho' [Hk' [Hl' He']]].
  rewrite kills_app, lookups_app, Hk, Hl, Hk', Hl', Ho', He', He. auto.
Qed.

(** A numeric token: one termination command, for [Number(arg)], and no
    listing. *)
Lemma handle_arg_numeric arg p :
  test PID_TOKEN arg = true ->
  outcome (handle_arg platform_ exec arg p) = Normal tt /\
  kills (trace (handle_arg platform_ exec arg p)) = [Number_of_digits arg] /\
  lookups (trace (handle_arg platform_ exec arg p)) = [] /\
  commands (trace (handle_arg platform_ exec arg p))
  = [kill_command platform_ (Number_of_digits arg)] /\
  exitCode (after (handle_arg platform_ exec arg p)) = exitCode p.
Proof.
  intros Ht. unfold handle_arg, try_catch, try_arg. rewrite Ht.
  pose proof (killProcess_run (Number_of_digits arg) p) as Hrun.
  destruct (exec (kill_command platform_ (Number_of_digits arg)) (world p))
    as [[e|out] w];
    unfold bind; cbn [console outcome after trace]; rewrite !Hrun;
    cbn [outcome after trace console exitCode app];
    repeat split; try reflexivity;
    change (Console ?s ?m :: Exec ?c ?r :: ?t)
      with ([Console s m] ++ [Exec c r] ++ t);
    rewrite ?kills_app, ?lookups_app, ?kills_kill_command,
      ?lookups_kill_command; reflexivity.
Qed.

(** A name: the listing, then the found identifiers, all of them. *)
Lemma handle_arg_name arg p :
  test PID_TOKEN arg = false ->
  outcome (handle_arg platform_ exec arg p) = Normal tt /\
  kills (trace (handle_arg platform_ exec arg p))
  = match outcome (findPidByProcessName platform_ exec arg p) with
    | Normal pids => pids
    | Throw _ => []
    end /\
  lookups (trace (handle_arg platform_ exec arg p)) = [arg] /\
  exitCode (after (handle_arg platform_ exec arg p)) = exitCode p.
Proof.
  intros Ht. unfold handle_arg, try_catch, try_arg. rewrite Ht.
  pose proof (findPidByProcessName_trace arg p) as Htr.
  pose proof (findPidByProcessName_exitCode arg p) as Hex.
  destruct (outcome (findPidByProcessName platform_ exec arg p))
    as [pids|e] eqn:Hfind.
  - rewrite (bind_normal _ _ _ Hfind). cbn [outcome after trace].
    destruct pids as [|pid pids]; cbn [List.length Nat.eqb].
    + cbn [console outcome after trace]. rewrite Htr.
      rewrite kills_app, lookups_app, kills_list_command,
        lookups_list_command. auto.
    + rewrite (bind_normal (console Log (Found arg (pid :: pids))) _ _
                 (a := tt) eq_refl).
      cbn [console outcome after trace].
      destruct (kill_each_run (pid :: pids)
                  (after (findPidByProcessName platform_ exec arg p)))
        as [Ho [Hk [Hl He]]].
      rewrite Ho. cbn [outcome after trace]. rewrite He, Htr.
      rewrite !kills_app, !lookups_app, kills_list_command,
        lookups_list_command, Hk, Hl. auto.
  - rewrite (bind_throw _ _ _ Hfind). cbn [outcome after trace console].
    rewrite Htr, kills_app, lookups_app, kills_list_command,
      lookups_list_command. auto.
Qed.

(** An iteration of the outer loop never raises, leaves the exit code
    alone and attempts the identifiers of its token. *)
Lemma handle_arg_run arg p :
  outcome (handle_arg platform_ exec arg p) = Normal tt /\
  kills (trace (handle_arg platform_ exec arg p)) = ids_of platform_ exec arg p /\
  exitCode (after (handle_arg platform_ exec arg p)) = exitCode p.
Proof.
  unfold ids_of. destruct (test PID_TOKEN arg) eqn:Ht.
  - destruct (handle_arg_numeric arg p Ht) as [Ho [Hk [_ [_ He]]]]. auto.
  - destruct (handle_arg_name arg p Ht) as [Ho [Hk [_ He]]]. auto.
Qed.

(** The outer loop splits into its iterations. *)
Lemma for_of_handle_arg_cons arg rest p :
  trace (for_of (arg :: rest) (handle_arg platform_ exec) p)
  = trace (handle_arg platform_ exec arg p)
    ++ trace (for_of rest (handle_arg platform_ exec)
                (after (handle_arg platform_ exec arg p))).
Proof.
  cbn [for_of]. destruct (handle_arg_run arg p) as [Ho _].
  rewrite (bind_normal _ _ _ Ho). reflexivity.
Qed.

Lemma for_of_handle_arg_run args p :
  outcome (for_of args (handle_arg platform_ exec) p) = Normal tt /\
  kills (trace (for_of args (handle_arg platform_ exec) p))
  = planned_kills platform_ exec args p /\
  exitCode (after (for_of args (handle_arg platform_ exec) p)) = exitCode p.
Proof.
  revert p. induction args as [|arg rest IH]; intros p; [cbn; auto|].
  rewrite for_of_handle_arg_cons. cbn [for_of planned_kills].
  destruct (handle_arg_run arg p) as [Ho [Hk He]].
  rewrite (bind_normal _ _ _ Ho). cbn [outcome after].
  destruct (IH (after (handle_arg platform_ exec arg p))) as [Ho' [Hk' He']].
  rewrite kills_app, Hk, Hk', Ho', He', He. auto.
Qed.

(** With arguments, the script runs the loop and ends with status 0. *)
Lemma script_with_args exe scr arg rest w :
  script platform_ exec (exe :: scr :: arg :: rest) w
  = {| status := 0;
       output := trace (for_of (arg :: rest) (handle_arg platform_ exec)
                          (start w));
       final := world (after (for_of (arg :: rest)
                                (handle_arg platform_ exec) (start w))) |}.
Proof.
  unfold script, main. cbn [skipn List.length Nat.eqb].
  destruct (for_of_handle_arg_run (arg :: rest) (start w)) as [Ho [_ He]].
  rewrite Ho, He. reflexivity.
Qed.

End KillerFacts.

(** ** The properties of the specification *)

Section Claims.

Variable World : Type.
Variable platform_ : platform.
Variable exec : command -> World -> exec_result * World.

Lemma code_is_1_true error : code error = ExitCode 1 -> code_is_1 error = true.
Proof. unfold code_is_1. intros ->. reflexivity. Qed.

Lemma code_is_1_false error :
  code error <> ExitCode 1 -> code_is_1 error = false.
Proof.
  unfold code_is_1. destruct (code error) as [[|[]|]| |]; simpl; congruence.
Qed.

Lemma script_one_arg exe scr arg w :
  output (script platform_ exec [exe; scr; arg] w)
  = trace (handle_arg platform_ exec arg (start w)) /\
  status (script platform_ exec [exe; scr; arg] w) = 0.
Proof.
  rewrite script_with_args. cbn [output status].
  rewrite for_of_handle_arg_cons. cbn [for_of ret trace].
  rewrite app_nil_r. auto.
Qed.

Lemma keep_nil n : keep n = [] <-> n = NaN.
Proof. destruct n; unfold keep; simpl; split; congruence. Qed.

(** C1 (amended). A token made of one or more decimal digits makes the
    driver call [killProcess] exactly once, with [Number(token)], and never
    the resolver; so does the program run on that token alone.
    [Number(token)] is the integer the token writes whenever that integer
    is at most 2^53. *)
Theorem C1_numeric_token_killed_directly :
  forall (arg : jsstring) (p : Process World) (exe scr : jsstring) w,
    arg <> [] -> all_digits arg = true ->
    kills (trace (handle_arg platform_ exec arg p)) = [Number_of_digits arg] /\
    lookups (trace (handle_arg platform_ exec arg p)) = [] /\
    kills (output (script platform_ exec [exe; scr; arg] w))
    = [Number_of_digits arg] /\
    lookups (output (script platform_ exec [exe; scr; arg] w)) = [] /\
    (decimal arg <= 2 ^ 53 -> Number_of_digits arg = Int (decimal arg)).
Proof.
  intros arg p exe scr w Hne Hd.
  assert (Ht : test PID_TOKEN arg = true)
    by (apply test_PID_TOKEN_true; auto).
  destruct (handle_arg_numeric platform_ exec arg p Ht) as [_ [Hk [Hl _]]].
  destruct (handle_arg_numeric platform_ exec arg (start w) Ht)
    as [_ [Hk' [Hl' _]]].
  destruct (script_one_arg exe scr arg w) as [Ho _]. rewrite Ho.
  repeat split; auto using Number_of_digits_exact.
Qed.

(** C2. When the listing command fails with exit code 1 on a platform
    other than Windows, the resolver answers the empty array; on every
    other failure of the command it rejects with that very error. *)
Theorem C2_listing_failure :
  forall name p error w',
    exec (list_command platform_ name) (world p) = (ExecError error, w') ->
    (platform_ <> win32 -> code error = ExitCode 1 ->
     outcome (findPidByProcessName platform_ exec name p) = Normal []) /\
    (~ (platform_ <> win32 /\ code error = ExitCode 1) ->
     outcome (findPidByProcessName platform_ exec name p) = Throw error).
Proof.
  intros name p error w' Hexec.
  rewrite findPidByProcessName_run, Hexec. cbn [outcome]. split.
  - intros Hp Hc. rewrite (is_win32_false Hp), (code_is_1_true _ Hc).
    reflexivity.
  - intros Hnot. destruct (is_win32 platform_) eqn:Hw; [reflexivity|].
    rewrite code_is_1_false; [reflexivity|].
    intros Hc. apply Hnot. split; [|exact Hc].
    intros ->. discriminate.
Qed.

(** C3. A token that is not numeric and resolves to the empty array gets
    the listing command, the not-found warning and nothing else: no
    termination, no error, and the program run on it alone exits with
    status 0. *)
Theorem C3_empty_resolution_not_found :
  forall arg p,
    test PID_TOKEN arg = false ->
    outcome (findPidByProcessName platform_ exec arg p) = Normal [] ->
    (trace (handle_arg platform_ exec arg p)
     = [Exec (list_command platform_ arg)
             (fst (exec (list_command platform_ arg) (world p)));
        Console Warn (NotFound arg)] /\
     kills (trace (handle_arg platform_ exec arg p)) = [] /\
     outcome (handle_arg platform_ exec arg p) = Normal tt /\
     exitCode (after (handle_arg platform_ exec arg p)) = exitCode p) /\
    (forall exe scr,
        exitCode p = None ->
        status (script platform_ exec [exe; scr; arg] (world p)) = 0 /\
        output (script platform_ exec [exe; scr; arg] (world p))
        = [Exec (list_command platform_ arg)
                (fst (exec (list_command platform_ arg) (world p)));
           Console Warn (NotFound arg)]).
Proof.
  intros arg p Ht Hfind.
  assert (Htrace : trace (handle_arg platform_ exec arg p)
                   = [Exec (list_command platform_ arg)
                        (fst (exec (list_command platform_ arg) (world p)));
                      Console Warn (NotFound arg)]).
  { unfold handle_arg, try_catch, try_arg. rewrite Ht.
    rewrite (bind_normal _ _ _ Hfind). cbn.
    rewrite findPidByProcessName_trace. reflexivity. }
  destruct (handle_arg_name platform_ exec arg p Ht) as [Ho [Hk [_ He]]].
  rewrite Hfind in Hk. repeat split; auto.
  - destruct (script_one_arg exe scr arg (world p)) as [_ Hs]. exact Hs.
  - destruct (script_one_arg exe scr arg (world p)) as [Hout _].
    rewrite Hout. destruct p as [w0 c0]. cbn in H. subst c0. exact Htrace.
Qed.

(** C5. Without arguments the program prints the usage line, exits with
    status 2 and runs no command at all. *)
Theorem C5_no_arguments_usage :
  forall exe scr w,
    script platform_ exec [exe; scr] w
    = {| status := 2; output := [Console Error Usage]; final := w |} /\
    lookups (output (script platform_ exec [exe; scr] w)) = [] /\
    kills (output (script platform_ exec [exe; scr] w)) = [] /\
    commands (output (script platform_ exec [exe; scr] w)) = [].
Proof. intros. repeat split. Qed.

(** C6. With at least one argument the program exits with status 0,
    having gone through every token, whatever failed on the way. *)
Theorem C6_exit_status_zero :
  forall exe scr arg rest w,
    status (script platform_ exec (exe :: scr :: arg :: rest) w) = 0 /\
    outcome (main platform_ exec (exe :: scr :: arg :: rest) (start w))
    = Normal tt /\
    kills (output (script platform_ exec (exe :: scr :: arg :: rest) w))
    = planned_kills platform_ exec (arg :: rest) (start w).
Proof.
  intros. rewrite script_with_args. cbn [status output].
  unfold main. cbn [skipn List.length Nat.eqb].
  destruct (for_of_handle_arg_run platform_ exec (arg :: rest) (start w))
    as [Ho [Hk _]].
  auto.
Qed.

(** C7 (amended). Off Windows the resolver reads every line of the trimmed
    output with [parseInt(line, 10)] and answers, in order, the numbers
    read. A line is skipped exactly when it does not begin, after optional
    white space and an optional sign, with a decimal digit. Any other line
    gives the JavaScript number [parseInt] makes of its sign and its leading
    run of digits, whatever follows them: the integer the digits write,
    negated after a minus sign, when that integer is not zero and at most
    2^53; the double nearest to it, or an infinity, above 2^53; [+0] for a
    run of zeros and [-0] for a run of zeros after a minus sign. A line of
    digits only gives [Number] of the line, which is the integer it writes
    when that is at most 2^53. *)
Theorem C7_pgrep_lines :
  forall name p stdout w',
    platform_ <> win32 ->
    exec (Pgrep name) (world p) = (ExecOutput stdout, w') ->
    outcome (findPidByProcessName platform_ exec name p)
    = Normal (flat_map (fun line => keep (parseInt10 line))
                (split_lines (trim stdout))) /\
    (forall line, keep (parseInt10 line) = [] <-> ~ numeric_prefix line) /\
    (forall ws sg ds rest,
        all_space ws = true -> is_sign sg ->
        ds <> [] -> all_digits ds = true -> starts_with_digit rest = false ->
        keep (parseInt10 (ws ++ sg ++ ds ++ rest)) = [signed_value sg ds]) /\
    (forall line : jsstring,
        line <> [] -> all_digits line = true ->
        keep (parseInt10 line) = [Number_of_digits line]) /\
    (forall sg ds,
        0 < decimal ds <= 2 ^ 53 ->
        signed_value sg ds
        = Int (match sg with
               | c :: _ => if (c =? MINUS)%N then - decimal ds else decimal ds
               | [] => decimal ds
               end)) /\
    (forall sg ds,
        decimal ds = 0 ->
        signed_value sg ds
        = match sg with
          | c :: _ => if (c =? MINUS)%N then NegZero else Int 0
          | [] => Int 0
          end) /\
    (forall sg ds,
        2 ^ 53 < decimal ds ->
        signed_value sg ds
        = of_nonzero (match sg with
                      | c :: _ => if (c =? MINUS)%N then - decimal ds
                                  else decimal ds
                      | [] => decimal ds
                      end)) /\
    (forall line : jsstring,
        decimal line <= 2 ^ 53 -> Number_of_digits line = Int (decimal line)).
Proof.
  intros name p stdout w' Hp Hexec.
  assert (Hsv : forall sg ds, isNaN (signed_value sg ds) = false).
  { intros sg ds. unfold signed_value.
    destruct (decimal ds =? 0); [|apply of_nonzero_not_NaN].
    destruct sg as [|c sg]; [reflexivity|].
    destruct (c =? MINUS)%N; reflexivity. }
  split; [|split; [|split; [|split; [|split; [|split; [|split]]]]]].
  - rewrite findPidByProcessName_run. unfold list_command.
    rewrite (is_win32_false Hp), Hexec. cbn [outcome].
    rewrite parse_pgrep_lines. reflexivity.
  - intros line. split.
    + intros Hk Hnum. apply parseInt10_NaN in Hnum.
      apply keep_nil in Hk. rewrite Hk in Hnum. discriminate.
    + intros Hnot. apply keep_nil.
      destruct (isNaN (parseInt10 line)) eqn:E.
      * destruct (parseInt10 line); try discriminate. reflexivity.
      * exfalso. apply Hnot. apply parseInt10_NaN. exact E.
  - intros ws sg ds rest Hws Hsg Hne Hds Hrest.
    rewrite parseInt10_value by assumption.
    unfold keep. rewrite Hsv. reflexivity.
  - intros line Hne Hds.
    pose proof (@parseInt10_value [] [] line [] eq_refl
                  (or_introl eq_refl) Hne Hds eq_refl) as E.
    cbn [app] in E. rewrite app_nil_r in E. rewrite E.
    unfold keep. rewrite Hsv. reflexivity.
  - apply signed_value_exact.
  - apply signed_value_zero.
  - intros sg ds Hbig. unfold signed_value.
    destruct (Z.eqb_spec (decimal ds) 0); [|reflexivity].
    assert (0 < 2 ^ 53) by (vm_compute; reflexivity). lia.
  - apply Number_of_digits_exact.
Qed.


(** C9. On Windows a failed listing command always rejects with its
    error, exit code 1 included: the empty answer for exit code 1 is kept
    for the other platforms. *)
Theorem C9_windows_failure_rejects :
  forall name p error w',
    platform_ = win32 ->
    exec (Tasklist name) (world p) = (ExecError error, w') ->
    outcome (findPidByProcessName platform_ exec name p) = Throw error.
Proof.
  intros name p error w' Hp Hexec.
  rewrite findPidByProcessName_run. unfold list_command.
  rewrite (is_win32_true Hp), Hexec. reflexivity.
Qed.

(** C10 (amended). The test for a numeric token accepts exactly the
    strings of one or more decimal digits, and the token accepted goes to
    [killProcess] as [Number(token)]: its decimal value whenever that is at
    most 2^53, so 0 for the token 0 and 7 for the token 007. Nothing checks
    that the identifier is positive. *)
Theorem C10_numeric_test :
  (forall arg, test PID_TOKEN arg = true <-> arg <> [] /\ all_digits arg = true) /\
  (forall arg p,
      test PID_TOKEN arg = true ->
      commands (trace (handle_arg platform_ exec arg p))
      = [kill_command platform_ (Number_of_digits arg)] /\
      (decimal arg <= 2 ^ 53 -> Number_of_digits arg = Int (decimal arg))) /\
  (forall p, kills (trace (handle_arg platform_ exec (js "0") p)) = [Int 0]) /\
  (forall p, kills (trace (handle_arg platform_ exec (js "007") p)) = [Int 7]).
Proof.
  split; [apply test_PID_TOKEN_true|]. split; [|split].
  - intros arg p Ht.
    destruct (handle_arg_numeric platform_ exec arg p Ht) as [_ [_ [_ [Hc _]]]].
    split; [exact Hc | apply Number_of_digits_exact].
  - intros p.
    destruct (handle_arg_numeric platform_ exec (js "0") p eq_refl)
      as [_ [Hk _]]. exact Hk.
  - intros p.
    destruct (handle_arg_numeric platform_ exec (js "007") p eq_refl)
      as [_ [Hk _]]. exact Hk.
Qed.

End Claims.

(** ** The properties at work on concrete runs *)

(** C1: the token 1234 on a quiet machine. *)
Lemma C1_witness :
  js "1234" <> [] /\ all_digits (js "1234") = true /\
  kills (trace (handle_arg linux quiet (js "1234") (start tt))) = [Int 1234] /\
  lookups (trace (handle_arg linux quiet (js "1234") (start tt))) = [] /\
  kills (output (script linux quiet [js "bun"; js "killer.ts"; js "1234"] tt))
  = [Int 1234] /\
  lookups (output (script linux quiet [js "bun"; js "killer.ts"; js "1234"] tt))
  = [] /\
  (decimal (js "1234") <= 2 ^ 53 ->
   Number_of_digits (js "1234") = Int (decimal (js "1234"))).
Proof.
  split; [discriminate|]. split; [reflexivity|].
  apply (@C1_numeric_token_killed_directly unit linux quiet (js "1234")
           (start tt) (js "bun") (js "killer.ts") tt);
    [discriminate | reflexivity].
Defined.

(** C1 as written fails above 2^53: the token 9007199254740993 reaches
    [killProcess] as 9007199254740992. *)
Lemma C1_counterexample :
  js "9007199254740993" <> [] /\
  all_digits (js "9007199254740993") = true /\
  decimal (js "9007199254740993") = 9007199254740993 /\
  kills (trace (handle_arg linux quiet (js "9007199254740993") (start tt)))
  = [Int 9007199254740992] /\
  kills (trace (handle_arg linux quiet (js "9007199254740993") (start tt)))
  <> [Int (decimal (js "9007199254740993"))].
Proof.
  split; [discriminate|]. split; [vm_compute; reflexivity|].
  split; [vm_compute; reflexivity|]. split; [vm_compute; reflexivity|].
  vm_compute. discriminate.
Defined.

(** C2: [pgrep] exits with 1, then with 2. *)
Lemma C2_witness :
  (failing 1 (list_command linux (js "ghost")) (world (start tt))
   = (ExecError (exit_with 1), tt) /\
   linux <> win32 /\ code (exit_with 1) = ExitCode 1 /\
   outcome (findPidByProcessName linux (failing 1) (js "ghost") (start tt))
   = Normal []) /\
  (failing 2 (list_command linux (js "ghost")) (world (start tt))
   = (ExecError (exit_with 2), tt) /\
   ~ (linux <> win32 /\ code (exit_with 2) = ExitCode 1) /\
   outcome (findPidByProcessName linux (failing 2) (js "ghost") (start tt))
   = Throw (exit_with 2)).
Proof.
  split.
  - split; [reflexivity|]. split; [discriminate|]. split; [reflexivity|].
    apply (proj1 (@C2_listing_failure unit linux (failing 1) (js "ghost")
                    (start tt) (exit_with 1) tt eq_refl));
      [discriminate | reflexivity].
  - split; [reflexivity|].
    assert (H : ~ (linux <> win32 /\ code (exit_with 2) = ExitCode 1))
      by (intros [_ H]; discriminate H).
    split; [exact H|].
    apply (proj2 (@C2_listing_failure unit linux (failing 2) (js "ghost")
                    (start tt) (exit_with 2) tt eq_refl)).
    exact H.
Defined.

(** C3: the scenario of a name nothing matches. *)
Lemma C3_witness :
  test PID_TOKEN (js "ghost-process") = false /\
  outcome (findPidByProcessName linux (failing 1) (js "ghost-process")
             (start tt)) = Normal [] /\
  trace (handle_arg linux (failing 1) (js "ghost-process") (start tt))
  = [Exec (Pgrep (js "ghost-process")) (ExecError (exit_with 1));
     Console Warn (NotFound (js "ghost-process"))] /\
  status (script linux (failing 1)
            [js "bun"; js "killer.ts"; js "ghost-process"] tt) = 0.
Proof.
  split; [reflexivity|]. split; [reflexivity|].
  pose proof (@C3_empty_resolution_not_found unit linux (failing 1)
                (js "ghost-process") (start tt) eq_refl eq_refl) as H.
  split.
  - exact (proj1 (proj1 H)).
  - exact (proj1 (proj2 H (js "bun") (js "killer.ts") eq_refl)).
Defined.

(** C7: a listing with a blank line and a line of letters. *)
Lemma C7_witness :
  linux <> win32 /\
  listing (js "100
200

abc
") (Pgrep (js "node")) (world (start tt))
  = (ExecOutput (js "100
200

abc
"), tt) /\
  outcome (findPidByProcessName linux (listing (js "100
200

abc
")) (js "node") (start tt))
  = Normal [Int 100; Int 200].
Proof.
  split; [discriminate|]. split; [reflexivity|].
  apply (proj1 (@C7_pgrep_lines unit linux (listing (js "100
200

abc
")) (js "node") (start tt) (js "100
200

abc
") tt ltac:(discriminate) eq_refl)).
Defined.

(** C7 as written fails on a line that starts with digits: it is not a
    numeric line, and it is not skipped. *)
Lemma C7_counterexample :
  numeric_line (js "12abc") = false /\
  ids_of_numeric_lines (js "12abc") = [] /\
  outcome (findPidByProcessName linux (listing (js "12abc")) (js "node")
             (start tt))
  = Normal [Int 12].
Proof. repeat split. Defined.



(** C9: [tasklist] exits with 1. *)
Lemma C9_witness :
  win32 = win32 /\
  failing 1 (Tasklist (js "ghost")) (world (start tt))
  = (ExecError (exit_with 1), tt) /\
  outcome (findPidByProcessName win32 (failing 1) (js "ghost") (start tt))
  = Throw (exit_with 1).
Proof.
  split; [reflexivity|]. split; [reflexivity|].
  apply (@C9_windows_failure_rejects unit win32 (failing 1) (js "ghost")
           (start tt) (exit_with 1) tt eq_refl eq_refl).
Defined.

(** C10: the token 42 on Windows. *)
Lemma C10_witness :
  test PID_TOKEN (js "42") = true /\
  commands (trace (handle_arg win32 quiet (js "42") (start tt)))
  = [Taskkill (Int 42)].
Proof.
  split; [reflexivity|].
  apply (proj1 (proj1 (proj2 (@C10_numeric_test unit win32 quiet))
                  (js "42") (start tt) eq_refl)).
Defined.

(** C10 as written fails above 2^53, leading zero or not. *)
Lemma C10_counterexample :
  test PID_TOKEN (js "09007199254740993") = true /\
  decimal (js "09007199254740993") = 9007199254740993 /\
  commands (trace (handle_arg win32 quiet (js "09007199254740993") (start tt)))
  = [Taskkill (Int 9007199254740992)] /\
  commands (trace (handle_arg win32 quiet (js "09007199254740993") (start tt)))
  <> [Taskkill (Int (decimal (js "09007199254740993")))].
Proof.
  split; [vm_compute; reflexivity|]. split; [vm_compute; reflexivity|].
  split; [vm_compute; reflexivity|]. vm_compute. discriminate.
Defined.

(** *** The scenarios of the specification *)

Example scenario_pid_then_name :
  let run := script linux stubborn
               [js "bun"; js "killer.ts"; js "42"; js "chrome"] 0%nat in
  kills (output run) = [Int 42; Int 100; Int 200] /\
  lookups (output run) = [js "chrome"] /\
  status run = 0 /\ final run = 4%nat.
Proof. vm_compute. repeat split. Qed.

Example scenario_no_arguments :
  script linux stubborn [js "bun"; js "killer.ts"] 0%nat
  = {| status := 2; output := [Console Error Usage]; final := 0%nat |}.
Proof. reflexivity. Qed.

Example scenario_row_with_empty_field :
  row_ids (q ++ js "a.exe" ++ q ++ js "," ++ q ++ js "7" ++ q ++ js ","
             ++ q ++ q ++ js "," ++ q ++ js "1" ++ q) = [].
Proof. reflexivity. Qed.

(** ** More on reading lines *)

Lemma parseInt10_unfold s :
  parseInt10 s
  = match trimStart s with
    | c :: r =>
        if (c =? MINUS)%N then read_signed true (fst (span_digits r))
        else if (c =? PLUS)%N then read_signed false (fst (span_digits r))
        else read_signed false (fst (span_digits (c :: r)))
    | [] => NaN
    end.
Proof.
  unfold parseInt10, read_signed.
  destruct (trimStart s) as [|c r]; [reflexivity|].
  destruct (c =? MINUS)%N;
    [destruct (span_digits r) as [[|d z] u]; reflexivity|].
  destruct (c =? PLUS)%N;
    [destruct (span_digits r) as [[|d z] u]; reflexivity|].
  destruct (span_digits (c :: r)) as [[|d z] u]; reflexivity.
Qed.

Lemma read_signed_not_NaN negative d z :
  isNaN (read_signed negative (d :: z)) = false.
Proof.
  unfold read_signed. destruct (decimal (d :: z) =? 0).
  - destruct negative; reflexivity.
  - apply of_nonzero_not_NaN.
Qed.

Lemma space_not_digit c : is_space c = true -> is_digit c = false.
Proof.
  intros Hs. destruct (is_digit c) eqn:Hd; [|reflexivity].
  apply digit_not_space in Hd. congruence.
Qed.

Lemma all_space_starts w : all_space w = true -> starts_with_digit w = false.
Proof.
  destruct w as [|c w]; [reflexivity|]. simpl. intros H.
  apply andb_true_iff in H as [Hc _]. apply space_not_digit. exact Hc.
Qed.

Lemma span_digits_fst_app s w :
  starts_with_digit w = false ->
  fst (span_digits (s ++ w)) = fst (span_digits s).
Proof.
  intros Hw. induction s as [|c s IH]; cbn [app].
  - rewrite span_digits_nil by exact Hw. reflexivity.
  - cbn [span_digits]. destruct (is_digit c); [|reflexivity].
    destruct (span_digits (s ++ w)) as [d1 r1].
    destruct (span_digits s) as [d2 r2]. cbn [fst] in *. congruence.
Qed.

Lemma trimStart_all_space w : all_space w = true -> trimStart w = [].
Proof.
  intros H. rewrite <- (app_nil_r w). rewrite trimStart_spaces by exact H.
  reflexivity.
Qed.

Lemma trimStart_nil_all_space l : trimStart l = [] -> all_space l = true.
Proof.
  induction l as [|c l IH]; [reflexivity|]. cbn [trimStart all_space forallb].
  destruct (is_space c); [exact IH | discriminate].
Qed.

Lemma trimStart_app_keep l w :
  trimStart l <> [] -> trimStart (l ++ w) = trimStart l ++ w.
Proof.
  induction l as [|c l IH]; cbn [trimStart app]; [congruence|].
  destruct (is_space c); [exact IH | reflexivity].
Qed.

(** White space before a line does not change what [parseInt] reads. *)
Lemma parseInt10_leading ws l :
  all_space ws = true -> parseInt10 (ws ++ l) = parseInt10 l.
Proof.
  intros H. rewrite !parseInt10_unfold, trimStart_spaces by exact H.
  reflexivity.
Qed.

(** Nor does white space after it. *)
Lemma parseInt10_trailing l w :
  all_space w = true -> parseInt10 (l ++ w) = parseInt10 l.
Proof.
  intros Hw. rewrite !parseInt10_unfold.
  pose proof (all_space_starts w Hw) as Hd.
  destruct (trimStart l) as [|c r] eqn:E.
  - rewrite trimStart_spaces by (apply trimStart_nil_all_space; exact E).
    rewrite trimStart_all_space by exact Hw. reflexivity.
  - rewrite trimStart_app_keep by (rewrite E; discriminate).
    rewrite E. cbn [app].
    change (c :: r ++ w) with ((c :: r) ++ w).
    rewrite !span_digits_fst_app by exact Hd. reflexivity.
Qed.

Lemma parseInt10_all_space w : all_space w = true -> parseInt10 w = NaN.
Proof.
  intros H. rewrite parseInt10_unfold, trimStart_all_space by exact H.
  reflexivity.
Qed.

(** *** Cutting an output into lines *)

Lemma split_lines_not_nil s : split_lines s <> [].
Proof.
  destruct s as [|c s]; cbn [split_lines]; [discriminate|].
  destruct (c =? LF)%N; [discriminate|].
  destruct (split_lines s); discriminate.
Qed.

Lemma split_lines_no_LF l : ~ In LF l -> split_lines l = [l].
Proof.
  induction l as [|c l IH]; intros H; [reflexivity|]. cbn [split_lines].
  destruct (N.eqb_spec c LF) as [->|Hc]; [exfalso; apply H; left; reflexivity|].
  rewrite IH; [reflexivity|]. intros Hin. apply H. right. exact Hin.
Qed.

(** The lines of two outputs put end to end: the last line of the first
    and the first line of the second become one. *)
Lemma split_lines_app a b :
  exists init l w0 rest,
    split_lines a = init ++ [l] /\ split_lines b = w0 :: rest /\
    split_lines (a ++ b) = init ++ (l ++ w0) :: rest.
Proof.
  induction a as [|c a IH].
  - destruct (split_lines b) as [|w0 rest] eqn:E;
      [exfalso; revert E; apply split_lines_not_nil|].
    exists [], [], w0, rest. cbn [app split_lines]. auto.
  - destruct IH as [init [l [w0 [rest [Ea [Eb Eab]]]]]].
    cbn [app split_lines]. rewrite Ea, Eab.
    destruct (c =? LF)%N.
    + exists ([] :: init), l, w0, rest. auto.
    + destruct init as [|i init]; cbn [app].
      * exists [], (c :: l), w0, rest. auto.
      * exists ((c :: i) :: init), l, w0, rest. auto.
Qed.

(** A line feed between two outputs keeps their lines apart. *)
Lemma split_lines_app_LF a b :
  split_lines (a ++ LF :: b) = split_lines a ++ split_lines b.
Proof.
  induction a as [|c a IH]; [reflexivity|].
  cbn [app split_lines]. rewrite IH.
  destruct (c =? LF)%N; [reflexivity|].
  destruct (split_lines a) as [|l ls] eqn:E; [|reflexivity].
  exfalso. revert E. apply split_lines_not_nil.
Qed.

Lemma split_lines_all_space w :
  all_space w = true -> Forall (fun b => all_space b = true) (split_lines w).
Proof.
  induction w as [|c w IH]; intros H; cbn [split_lines].
  - constructor; [reflexivity | constructor].
  - cbn [all_space forallb] in H. apply andb_true_iff in H as [Hc Hw].
    specialize (IH Hw). destruct (c =? LF)%N.
    + constructor; [reflexivity | exact IH].
    + destruct (split_lines w) as [|l ls]; [repeat constructor; simpl; rewrite Hc; reflexivity|].
      inversion IH; subst. constructor; [|assumption].
      cbn [all_space forallb]. rewrite Hc. assumption.
Qed.

Lemma all_space_rev w : all_space w = true -> all_space (rev w) = true.
Proof.
  unfold all_space. rewrite !forallb_forall. intros H c Hc.
  apply H. apply in_rev. exact Hc.
Qed.

(** What [trimEnd] removes is white space. *)
Lemma trimEnd_split s :
  exists ws, s = trimEnd s ++ ws /\ all_space ws = true.
Proof.
  unfold trimEnd. destruct (trimStart_split (rev s)) as [ws [E Hws]].
  exists (rev ws). split; [|apply all_space_rev; exact Hws].
  rewrite <- rev_app_distr, <- E, rev_involutive. reflexivity.
Qed.

(** *** The lines of [pgrep] *)

Lemma keep_lines_blank ls :
  Forall (fun b => all_space b = true) ls ->
  flat_map (fun line => keep (parseInt10 line)) ls = [].
Proof.
  induction 1 as [|b ls Hb _ IH]; [reflexivity|].
  cbn [flat_map]. rewrite parseInt10_all_space by exact Hb. exact IH.
Qed.

Lemma keep_lines_trailing t w :
  all_space w = true ->
  flat_map (fun line => keep (parseInt10 line)) (split_lines (t ++ w))
  = flat_map (fun line => keep (parseInt10 line)) (split_lines t).
Proof.
  intros Hw.
  destruct (split_lines_app t w) as [init [l [w0 [rest [Et [Ew Etw]]]]]].
  pose proof (split_lines_all_space w Hw) as Hall. rewrite Ew in Hall.
  inversion Hall as [|? ? Hw0 Hrest]; subst.
  rewrite Et, Etw, !flat_map_app. cbn [flat_map].
  rewrite parseInt10_trailing by exact Hw0.
  rewrite (keep_lines_blank Hrest). reflexivity.
Qed.

Lemma keep_lines_leading w t :
  all_space w = true ->
  flat_map (fun line => keep (parseInt10 line)) (split_lines (w ++ t))
  = flat_map (fun line => keep (parseInt10 line)) (split_lines t).
Proof.
  intros Hw.
  destruct (split_lines_app w t) as [init [l [w0 [rest [Ew [Et Ewt]]]]]].
  pose proof (split_lines_all_space w Hw) as Hall. rewrite Ew in Hall.
  apply Forall_app in Hall as [Hinit Hl].
  inversion Hl as [|? ? Hl0 _]; subst.
  rewrite Et, Ewt, !flat_map_app. cbn [flat_map].
  rewrite parseInt10_leading by exact Hl0.
  rewrite (keep_lines_blank Hinit). reflexivity.
Qed.

(** The call to [trim] changes nothing for [pgrep]: the lines of the raw
    output give the same identifiers. *)
Lemma parse_pgrep_untrimmed stdout :
  parse_pgrep stdout
  = flat_map (fun line => keep (parseInt10 line)) (split_lines stdout).
Proof.
  rewrite parse_pgrep_lines. unfold trim.
  destruct (trimEnd_split (trimStart stdout)) as [w2 [E2 H2]].
  destruct (trimStart_split stdout) as [w1 [E1 H1]].
  rewrite <- (@keep_lines_trailing (trimEnd (trimStart stdout)) w2 H2), <- E2.
  rewrite E1 at 2. rewrite keep_lines_leading by exact H1. reflexivity.
Qed.

Lemma signed_value_not_NaN sg ds : isNaN (signed_value sg ds) = false.
Proof.
  unfold signed_value. destruct (decimal ds =? 0); [|apply of_nonzero_not_NaN].
  destruct sg as [|c sg]; [reflexivity|]. destruct (c =? MINUS)%N; reflexivity.
Qed.

(** A line of digits gives the number it writes. *)
Lemma keep_parseInt10_digits (d : jsstring) :
  d <> [] -> all_digits d = true -> keep (parseInt10 d) = [Number_of_digits d].
Proof.
  intros Hne Hd.
  pose proof (@parseInt10_value [] [] d [] eq_refl (or_introl eq_refl)
                Hne Hd eq_refl) as E.
  cbn [app] in E. rewrite app_nil_r in E. rewrite E.
  unfold keep. rewrite signed_value_not_NaN. reflexivity.
Qed.

Lemma split_lines_pgrep_output ids :
  Forall (fun d : jsstring => d <> [] /\ all_digits d = true) ids ->
  split_lines (pgrep_output ids) = ids ++ [[]].
Proof.
  induction 1 as [|d ids [Hne Hd] _ IH]; [reflexivity|].
  unfold pgrep_output in *. cbn [map concat].
  rewrite <- app_assoc. cbn [app]. rewrite split_lines_app_LF, IH.
  rewrite split_lines_no_LF; [reflexivity|].
  intros Hin. unfold all_digits in Hd. rewrite forallb_forall in Hd.
  specialize (Hd LF Hin). discriminate.
Qed.

(** *** The rows of [tasklist] *)

Lemma three_fields_last f1 f2 f3 :
  exists body, three_fields f1 f2 f3 = body ++ [QUOTE].
Proof.
  unfold three_fields, quoted.
  exists (QUOTE :: f1 ++ [QUOTE] ++ COMMA :: (QUOTE :: f2 ++ [QUOTE])
            ++ COMMA :: QUOTE :: f3).
  cbn [app]. repeat (rewrite <- app_assoc; cbn [app]). reflexivity.
Qed.

(** A match ends on a quotation mark, so it lies before a tail that holds
    none. *)
Lemma three_fields_before f1 f2 f3 rest s w :
  ~ In QUOTE w ->
  s ++ w = three_fields f1 f2 f3 ++ rest ->
  exists rest', s = three_fields f1 f2 f3 ++ rest' /\ rest = rest' ++ w.
Proof.
  intros Hw E. apply app_eq_app in E as [m [[E1 E2]|[E1 E2]]].
  - exists m. auto.
  - destruct m as [|c m].
    + exists []. rewrite app_nil_r in E1. cbn [app] in E2.
      rewrite app_nil_r. auto.
    + exfalso. destruct (three_fields_last f1 f2 f3) as [body Eb].
      destruct (@exists_last _ (c :: m)) as [m' [x Em]]; [discriminate|].
      rewrite Em, app_assoc, Eb in E1. apply app_inj_tail in E1 as [_ Ex].
      apply Hw. rewrite E2, Em, <- Ex. apply in_or_app. left.
      apply in_or_app. right. left. reflexivity.
Qed.

(** White space, or any tail without a quotation mark, after a row does not
    change what the pattern finds in it. *)
Lemma run_CSV_ROW_tail s w gs rest :
  run CSV_ROW false s = Some (gs, rest) ->
  run CSV_ROW false (s ++ w) = Some (gs, rest ++ w).
Proof.
  intros H.
  apply run_CSV_ROW_sound in H as [f1 [f2 [f3 [-> [H1 [H2 [H3 ->]]]]]]].
  rewrite <- app_assoc. apply run_CSV_ROW_complete; assumption.
Qed.

Lemma run_CSV_ROW_tail_none s w :
  ~ In QUOTE w ->
  run CSV_ROW false s = None -> run CSV_ROW false (s ++ w) = None.
Proof.
  intros Hw Hs.
  destruct (run CSV_ROW false (s ++ w)) as [[gs rest]|] eqn:E; [|reflexivity].
  apply run_CSV_ROW_sound in E as [f1 [f2 [f3 [E [H1 [H2 [H3 _]]]]]]].
  apply (@three_fields_before f1 f2 f3 rest s w Hw) in E as [rest' [-> _]].
  rewrite run_CSV_ROW_complete in Hs by assumption. discriminate.
Qed.

Lemma run_CSV_ROW_no_quote w : ~ In QUOTE w -> run CSV_ROW false w = None.
Proof.
  intros Hw. apply (@run_CSV_ROW_tail_none [] w Hw). reflexivity.
Qed.

Lemma search_CSV_ROW_no_quote b w : ~ In QUOTE w -> search CSV_ROW b w = None.
Proof.
  intros Hw. apply search_none; [apply run_CSV_ROW_bol|].
  intros p t ->. apply run_CSV_ROW_no_quote.
  intros Hin. apply Hw. apply in_or_app. right. exact Hin.
Qed.

Lemma search_CSV_ROW_tail b s w :
  ~ In QUOTE w ->
  captures (search CSV_ROW b (s ++ w)) = captures (search CSV_ROW b s).
Proof.
  intros Hw. revert b. induction s as [|c s IH]; intros b.
  - cbn [app]. rewrite search_CSV_ROW_no_quote by exact Hw. reflexivity.
  - cbn [app search]. rewrite (run_CSV_ROW_bol b (c :: s ++ w)).
    rewrite (run_CSV_ROW_bol b (c :: s)).
    destruct (run CSV_ROW false (c :: s)) as [[gs rest]|] eqn:E.
    + apply (@run_CSV_ROW_tail (c :: s) w gs rest) in E. cbn [app] in E.
      rewrite E.
      reflexivity.
    + apply (@run_CSV_ROW_tail_none (c :: s) w Hw) in E. cbn [app] in E.
      rewrite E.
      apply IH.
Qed.

Lemma search_cons r b s m :
  search r b s = Some m -> exists whole gs, m = whole :: gs.
Proof.
  revert b. induction s as [|c s IH]; intros b; cbn [search].
  - destruct (run r b []) as [[gs rest]|]; [|discriminate].
    intros H. inversion H. eauto.
  - destruct (run r b (c :: s)) as [[gs rest]|].
    + intros H. inversion H. eauto.
    + apply IH.
Qed.

(** What a row adds depends on the captures alone. *)
Lemma row_ids_captures row :
  row_ids row
  = match captures (str_match row CSV_ROW) with
    | Some gs =>
        match nth_error gs 1 with
        | Some (c :: f) => keep (parseInt10 (c :: f))
        | _ => []
        end
    | None => []
    end.
Proof.
  unfold row_ids, push_tasklist_row.
  destruct (str_match row CSV_ROW) as [m|] eqn:E; [|reflexivity].
  destruct (@search_cons CSV_ROW true row m E) as [whole [gs ->]].
  cbn [captures tl]. change (nth_error (whole :: gs) 2) with (nth_error gs 1).
  destruct (nth_error gs 1) as [[|c f]|].
  - reflexivity.
  - unfold keep. destruct (isNaN (parseInt10 (c :: f))); reflexivity.
  - reflexivity.
Qed.

Lemma row_ids_trailing row w :
  ~ In QUOTE w -> row_ids (row ++ w) = row_ids row.
Proof.
  intros Hw. rewrite !row_ids_captures. unfold str_match.
  rewrite search_CSV_ROW_tail by exact Hw. reflexivity.
Qed.

Lemma all_space_no_quote w : all_space w = true -> ~ In QUOTE w.
Proof.
  unfold all_space. rewrite forallb_forall. intros H Hin.
  specialize (H QUOTE Hin). discriminate.
Qed.

Lemma row_ids_blank w : all_space w = true -> row_ids w = [].
Proof.
  intros H. rewrite row_ids_captures. unfold str_match.
  rewrite search_CSV_ROW_no_quote by (apply all_space_no_quote; exact H).
  reflexivity.
Qed.

Lemma row_ids_blanks ls :
  Forall (fun b => all_space b = true) ls -> flat_map row_ids ls = [].
Proof.
  induction 1 as [|b ls Hb _ IH]; [reflexivity|].
  cbn [flat_map]. rewrite row_ids_blank by exact Hb. exact IH.
Qed.

(** White space after the table does not change the rows read. *)
Lemma rows_trailing t w :
  all_space w = true ->
  flat_map row_ids (slice1 (split_lines (t ++ w)))
  = flat_map row_ids (slice1 (split_lines t)).
Proof.
  intros Hw.
  destruct (split_lines_app t w) as [init [l [w0 [rest [Et [Ew Etw]]]]]].
  pose proof (split_lines_all_space w Hw) as Hall. rewrite Ew in Hall.
  inversion Hall as [|? ? Hw0 Hrest]; subst.
  rewrite Et, Etw. destruct init as [|i init]; cbn [app slice1 tl].
  - apply row_ids_blanks. exact Hrest.
  - rewrite !flat_map_app. cbn [flat_map].
    rewrite row_ids_trailing by (apply all_space_no_quote; exact Hw0).
    rewrite (row_ids_blanks Hrest). reflexivity.
Qed.

(** The rows are those of the output without its leading white space. *)
Lemma parse_tasklist_trimStart stdout :
  parse_tasklist stdout
  = flat_map row_ids (slice1 (split_lines (trimStart stdout))).
Proof.
  rewrite parse_tasklist_rows. unfold trim.
  destruct (trimEnd_split (trimStart stdout)) as [w [E H]].
  rewrite <- (@rows_trailing (trimEnd (trimStart stdout)) w H), <- E.
  reflexivity.
Qed.

Lemma In_trimStart c s : In c (trimStart s) -> In c s.
Proof.
  induction s as [|d s IH]; cbn [trimStart]; [auto|].
  destruct (is_space d); [intros H; right; auto | auto].
Qed.

Lemma digits_quote_free d : all_digits d = true -> quote_free d = true.
Proof.
  unfold all_digits, quote_free. rewrite !forallb_forall. intros H c Hc.
  specialize (H c Hc). unfold is_digit in H.
  apply andb_true_iff in H as [H1 _]. apply N.leb_le in H1.
  apply negb_true_iff. apply N.eqb_neq. unfold QUOTE. lia.
Qed.

Lemma split_lines_rows (l : jsstring) rows :
  ~ In LF l ->
  Forall (fun r => ~ In LF (render_row r)) rows ->
  split_lines (l ++ concat (map (fun r => LF :: render_row r) rows))
  = l :: map render_row rows.
Proof.
  intros Hl Hrows. revert l Hl.
  induction Hrows as [|r rows Hr _ IH]; intros l Hl.
  - cbn [map concat]. rewrite app_nil_r. apply split_lines_no_LF. exact Hl.
  - cbn [map concat app]. rewrite split_lines_app_LF, IH by exact Hr.
    rewrite split_lines_no_LF by exact Hl. reflexivity.
Qed.

(** ** More on the runs of the program *)

Section RunFacts.

Variable World : Type.
Variable platform_ : platform.
Variable exec : command -> World -> exec_result * World.

Lemma commands_app t1 t2 : commands (t1 ++ t2) = commands t1 ++ commands t2.
Proof. apply flat_map_app. Qed.

Lemma faithful_nil : faithful platform_ [].
Proof. split; reflexivity. Qed.

Lemma faithful_app t1 t2 :
  faithful platform_ t1 -> faithful platform_ t2 ->
  faithful platform_ (t1 ++ t2).
Proof.
  unfold faithful, reported, surfaced, killed_lines, succeeded.
  intros [H1 H2] [H3 H4]. rewrite !flat_map_app. split; congruence.
Qed.

Lemma kill_one_faithful pid p :
  faithful platform_ (trace (kill_one platform_ exec pid p)) /\
  commands (trace (kill_one platform_ exec pid p))
  = [kill_command platform_ pid].
Proof.
  unfold kill_one, try_catch, bind. rewrite killProcess_run.
  unfold faithful, surfaced, swallowed, kill_command.
  destruct (exec (if is_win32 platform_ then Taskkill pid else Kill9 pid)
              (world p)) as [[e|out] w];
    destruct (is_win32 platform_); cbn; auto.
Qed.

Lemma kill_each_faithful pids p :
  faithful platform_ (trace (kill_each platform_ exec pids p)) /\
  commands (trace (kill_each platform_ exec pids p))
  = map (kill_command platform_) pids.
Proof.
  unfold kill_each. revert p.
  induction pids as [|pid pids IH]; intros p;
    [split; [apply faithful_nil | reflexivity]|].
  cbn [for_of map].
  destruct (kill_one_run platform_ exec pid p) as [Ho _].
  rewrite (bind_normal _ _ _ Ho). cbn [trace].
  destruct (kill_one_faithful pid p) as [Hf Hc].
  destruct (IH (after (kill_one platform_ exec pid p))) as [Hf' Hc'].
  split; [apply faithful_app; assumption|].
  rewrite commands_app, Hc, Hc'. reflexivity.
Qed.

(** The lines and the command of a numeric token. *)
Lemma handle_arg_numeric_trace arg p :
  test PID_TOKEN arg = true ->
  let pid := Number_of_digits arg in
  let r := fst (exec (kill_command platform_ pid) (world p)) in
  trace (handle_arg platform_ exec arg p)
  = [Console Log (Killing pid); Exec (kill_command platform_ pid) r;
     match r with
     | ExecOutput _ => Console Log (Killed pid)
     | ExecError e => Console Error (Failed arg e)
     end].
Proof.
  intros Ht. unfold handle_arg, try_catch, try_arg. rewrite Ht.
  pose proof (killProcess_run platform_ exec (Number_of_digits arg) p) as Hrun.
  cbv zeta.
  destruct (exec (kill_command platform_ (Number_of_digits arg)) (world p))
    as [[e|out] w];
    unfold bind; cbn [console outcome after trace]; rewrite !Hrun;
    reflexivity.
Qed.

(** The lines and the commands of a name. *)
Lemma handle_arg_name_trace arg p :
  test PID_TOKEN arg = false ->
  trace (handle_arg platform_ exec arg p)
  = trace (findPidByProcessName platform_ exec arg p)
    ++ match outcome (findPidByProcessName platform_ exec arg p) with
       | Normal [] => [Console Warn (NotFound arg)]
       | Normal pids =>
           Console Log (Found arg pids)
           :: trace (kill_each platform_ exec pids
                       (after (findPidByProcessName platform_ exec arg p)))
       | Throw e => [Console Error (Failed arg e)]
       end.
Proof.
  intros Ht. unfold handle_arg, try_catch, try_arg. rewrite Ht.
  destruct (outcome (findPidByProcessName platform_ exec arg p))
    as [pids|e] eqn:Hfind.
  - rewrite (bind_normal _ _ _ Hfind). cbn [outcome after trace].
    destruct pids as [|pid pids]; cbn [List.length Nat.eqb].
    + reflexivity.
    + rewrite (bind_normal (console Log (Found arg (pid :: pids))) _ _
                 (a := tt) eq_refl).
      cbn [console outcome after trace].
      destruct (kill_each_run platform_ exec (pid :: pids)
                  (after (findPidByProcessName platform_ exec arg p)))
        as [Ho _].
      rewrite Ho. reflexivity.
  - rewrite (bind_throw _ _ _ Hfind). reflexivity.
Qed.

Lemma handle_arg_faithful arg p :
  faithful platform_ (trace (handle_arg platform_ exec arg p)).
Proof.
  destruct (test PID_TOKEN arg) eqn:Ht.
  - rewrite (handle_arg_numeric_trace arg p Ht). cbv zeta.
    unfold faithful, surfaced, swallowed, kill_command.
    destruct (fst (exec (if is_win32 platform_
                         then Taskkill (Number_of_digits arg)
                         else Kill9 (Number_of_digits arg)) (world p)))
      as [e|out];
      destruct (is_win32 platform_); cbn; auto.
  - rewrite (handle_arg_name_trace arg p Ht).
    rewrite findPidByProcessName_run.
    destruct (exec (list_command platform_ arg) (world p)) as [[e|out] w];
      cbn [outcome after trace].
    + unfold faithful, surfaced, swallowed, list_command.
      destruct (is_win32 platform_); destruct (code_is_1 e) eqn:Hc;
        cbn; rewrite ?Hc; cbn; auto.
    + set (pids := if is_win32 platform_ then parse_tasklist out
                   else parse_pgrep out).
      apply (faithful_app (t1 := [Exec (list_command platform_ arg)
                                    (ExecOutput out)])).
      * unfold faithful, surfaced, swallowed, list_command.
        destruct (is_win32 platform_); cbn; auto.
      * destruct pids as [|pid pids]; [split; reflexivity|].
        apply (faithful_app (t1 := [Console Log (Found arg (pid :: pids))]));
          [split; reflexivity|].
        apply kill_each_faithful.
Qed.

Lemma for_of_handle_arg_faithful args p :
  faithful platform_ (trace (for_of args (handle_arg platform_ exec) p)).
Proof.
  revert p. induction args as [|arg rest IH]; intros p;
    [apply faithful_nil|].
  rewrite for_of_handle_arg_cons.
  apply faithful_app; [apply handle_arg_faithful | apply IH].
Qed.

Lemma main_run argv p :
  outcome (main platform_ exec argv p) = Normal tt /\
  (skipn 2 argv <> [] ->
   main platform_ exec argv p
   = for_of (skipn 2 argv) (handle_arg platform_ exec) p) /\
  (skipn 2 argv = [] ->
   trace (main platform_ exec argv p) = [Console Error Usage] /\
   exitCode (after (main platform_ exec argv p)) = Some 2).
Proof.
  unfold main. destruct (skipn 2 argv) as [|arg rest] eqn:E.
  - cbn. repeat split; congruence.
  - cbn [List.length Nat.eqb].
    destruct (for_of_handle_arg_run platform_ exec (arg :: rest) p) as [Ho _].
    repeat split; auto; discriminate.
Qed.

Lemma script_output argv w :
  output (script platform_ exec argv w)
  = trace (main platform_ exec argv (start w)).
Proof.
  unfold script. destruct (main_run argv (start w)) as [Ho _].
  rewrite Ho. reflexivity.
Qed.

Lemma main_lookups argv p :
  lookups (trace (main platform_ exec argv p))
  = filter (fun a => negb (test PID_TOKEN a)) (skipn 2 argv).
Proof.
  destruct (main_run argv p) as [_ [Hargs Hnone]].
  destruct (skipn 2 argv) as [|arg rest] eqn:E.
  - destruct (Hnone eq_refl) as [Ht _]. rewrite Ht. reflexivity.
  - rewrite Hargs by discriminate. clear Hargs Hnone E.
    generalize (arg :: rest) as args. clear arg rest.
    intros args. revert p. induction args as [|a args IH]; intros p;
      [reflexivity|].
    rewrite for_of_handle_arg_cons, lookups_app, IH. cbn [filter].
    destruct (test PID_TOKEN a) eqn:Ht; cbn [negb].
    + destruct (handle_arg_numeric platform_ exec a p Ht) as [_ [_ [Hl _]]].
      rewrite Hl. reflexivity.
    + destruct (handle_arg_name platform_ exec a p Ht) as [_ [_ [Hl _]]].
      rewrite Hl. reflexivity.
Qed.

Lemma for_of_handle_arg_app args1 args2 p :
  let r1 := for_of args1 (handle_arg platform_ exec) p in
  for_of (args1 ++ args2) (handle_arg platform_ exec) p
  = let r2 := for_of args2 (handle_arg platform_ exec) (after r1) in
    {| outcome := outcome r2; after := after r2;
       trace := trace r1 ++ trace r2 |}.
Proof.
  cbv zeta. revert p. induction args1 as [|a args1 IH]; intros p.
  - cbn [app for_of ret after trace].
    destruct (for_of args2 (handle_arg platform_ exec) p); reflexivity.
  - cbn [app for_of]. destruct (handle_arg_run platform_ exec a p) as [Ho _].
    rewrite !(bind_normal _ _ _ Ho). rewrite IH.
    cbn [outcome after trace]. rewrite app_assoc. reflexivity.
Qed.

End RunFacts.

(** ** Failures stay where they happen *)

Section Isolation.

Variable World : Type.
Variable platform_ : platform.
Variable exec : command -> World -> exec_result * World.

(** One identifier of the inner loop: its command, then one line. *)
Lemma kill_one_trace pid p :
  trace (kill_one platform_ exec pid p)
  = [Exec (kill_command platform_ pid)
          (fst (exec (kill_command platform_ pid) (world p)));
     match fst (exec (kill_command platform_ pid) (world p)) with
     | ExecOutput _ => Console Log (Killed pid)
     | ExecError e => Console Error (CannotKill pid e)
     end].
Proof.
  unfold kill_one, try_catch, bind. rewrite killProcess_run.
  destruct (exec (kill_command platform_ pid) (world p)) as [[e|out] w];
    reflexivity.
Qed.

(** C4. Failures never cut the work short, and each becomes a line on the
    console. The inner loop attempts every identifier it is given, whatever
    the commands answer; an iteration of the outer loop never raises and
    attempts every identifier of its token; the outer loop goes on with the
    next token; so the program attempts the identifiers of every token, in
    order. A refused termination of a resolved identifier is followed by
    one [console.error] line with the identifier and the error; a refused
    termination of a numeric token, and a rejected listing, by one
    [console.error] line with the token and the error; and over a whole run
    the errors on [console.error] are, in order, those of the commands that
    failed, but for the listings that exit with 1 off Windows. *)
Theorem C4_failures_do_not_abort :
  (forall pids p,
      kills (trace (kill_each platform_ exec pids p)) = pids /\
      outcome (kill_each platform_ exec pids p) = Normal tt) /\
  (forall arg p,
      outcome (handle_arg platform_ exec arg p) = Normal tt /\
      kills (trace (handle_arg platform_ exec arg p))
      = ids_of platform_ exec arg p) /\
  (forall arg rest p,
      trace (for_of (arg :: rest) (handle_arg platform_ exec) p)
      = trace (handle_arg platform_ exec arg p)
        ++ trace (for_of rest (handle_arg platform_ exec)
                    (after (handle_arg platform_ exec arg p)))) /\
  (forall exe scr args w,
      kills (output (script platform_ exec (exe :: scr :: args) w))
      = planned_kills platform_ exec args (start w)) /\
  (forall pid p,
      trace (kill_one platform_ exec pid p)
      = [Exec (kill_command platform_ pid)
              (fst (exec (kill_command platform_ pid) (world p)));
         match fst (exec (kill_command platform_ pid) (world p)) with
         | ExecOutput _ => Console Log (Killed pid)
         | ExecError e => Console Error (CannotKill pid e)
         end]) /\
  (forall (arg : jsstring) p e,
      test PID_TOKEN arg = true ->
      fst (exec (kill_command platform_ (Number_of_digits arg)) (world p))
      = ExecError e ->
      trace (handle_arg platform_ exec arg p)
      = [Console Log (Killing (Number_of_digits arg));
         Exec (kill_command platform_ (Number_of_digits arg)) (ExecError e);
         Console Error (Failed arg e)]) /\
  (forall (arg : jsstring) p e,
      test PID_TOKEN arg = false ->
      outcome (findPidByProcessName platform_ exec arg p) = Throw e ->
      trace (handle_arg platform_ exec arg p)
      = [Exec (list_command platform_ arg) (ExecError e);
         Console Error (Failed arg e)]) /\
  (forall exe scr args w,
      reported (output (script platform_ exec (exe :: scr :: args) w))
      = surfaced platform_
          (output (script platform_ exec (exe :: scr :: args) w))).
Proof.
  split; [|split; [|split; [|split; [|split; [|split; [|split]]]]]].
  - intros pids p. split; apply kill_each_run.
  - intros arg p. split; apply handle_arg_run.
  - intros. apply for_of_handle_arg_cons.
  - intros exe scr [|arg rest] w; [reflexivity|].
    rewrite script_with_args. cbn [output].
    apply for_of_handle_arg_run.
  - apply kill_one_trace.
  - intros arg p e Ht He.
    rewrite (handle_arg_numeric_trace platform_ exec arg p Ht). cbv zeta.
    rewrite He. reflexivity.
  - intros arg p e Ht Hfind.
    rewrite (handle_arg_name_trace platform_ exec arg p Ht), Hfind.
    rewrite findPidByProcessName_run in Hfind |- *.
    destruct (exec (list_command platform_ arg) (world p)) as [[e'|out] w];
      cbn [outcome trace] in *.
    + destruct (negb (is_win32 platform_) && code_is_1 e'); [discriminate|].
      inversion Hfind. reflexivity.
    + discriminate.
  - intros exe scr [|arg rest] w; [reflexivity|].
    rewrite script_with_args. cbn [output].
    apply for_of_handle_arg_faithful.
Qed.

End Isolation.

(** C4: a token and a name on a machine that refuses every termination. *)
Lemma C4_witness :
  (test PID_TOKEN (js "42") = true /\
   fst (stubborn (kill_command linux (Number_of_digits (js "42")))
          (world (start 0%nat)))
   = ExecError (exit_with 1) /\
   trace (handle_arg linux stubborn (js "42") (start 0%nat))
   = [Console Log (Killing (Int 42));
      Exec (Kill9 (Int 42)) (ExecError (exit_with 1));
      Console Error (Failed (js "42") (exit_with 1))]) /\
  (test PID_TOKEN (js "ghost") = false /\
   outcome (findPidByProcessName linux (failing 2) (js "ghost") (start tt))
   = Throw (exit_with 2) /\
   trace (handle_arg linux (failing 2) (js "ghost") (start tt))
   = [Exec (Pgrep (js "ghost")) (ExecError (exit_with 2));
      Console Error (Failed (js "ghost") (exit_with 2))]) /\
  kills (output (script linux stubborn
                   [js "bun"; js "killer.ts"; js "42"; js "chrome"] 0%nat))
  = [Int 42; Int 100; Int 200] /\
  reported (output (script linux stubborn
                      [js "bun"; js "killer.ts"; js "42"; js "chrome"] 0%nat))
  = [exit_with 1; exit_with 1; exit_with 1].
Proof.
  pose proof (@C4_failures_do_not_abort nat linux stubborn)
    as [_ [_ [_ [Hk [_ [Hnum [_ _]]]]]]].
  pose proof (@C4_failures_do_not_abort unit linux (failing 2))
    as [_ [_ [_ [_ [_ [_ [Hname Hrep]]]]]]].
  split; [|split; [|split]].
  - split; [reflexivity|]. split; [reflexivity|].
    apply (Hnum (js "42") (start 0%nat) (exit_with 1) eq_refl eq_refl).
  - split; [reflexivity|]. split; [reflexivity|].
    apply (Hname (js "ghost") (start tt) (exit_with 2) eq_refl eq_refl).
  - apply (Hk (js "bun") (js "killer.ts") [js "42"; js "chrome"] 0%nat).
  - pose proof (@C4_failures_do_not_abort nat linux stubborn)
      as [_ [_ [_ [_ [_ [_ [_ Hr]]]]]]].
    rewrite (Hr (js "bun") (js "killer.ts") [js "42"; js "chrome"] 0%nat).
    reflexivity.
Defined.

(** ** Further properties of the two scripts *)

Section Further.

Variable World : Type.
Variable platform_ : platform.
Variable exec : command -> World -> exec_result * World.

Lemma keep_no_NaN n : Forall (fun m => isNaN m = false) (keep n).
Proof. destruct n; unfold keep; cbn; repeat constructor. Qed.

Lemma flat_map_Forall A B (P : B -> Prop) (f : A -> list B) l :
  (forall x, Forall P (f x)) -> Forall P (flat_map f l).
Proof.
  intros H. induction l as [|x l IH]; [constructor|].
  cbn [flat_map]. apply Forall_app. auto.
Qed.

Lemma of_Z_not_NaN z : isNaN (of_Z z) = false.
Proof.
  unfold of_Z. destruct (z =? 0); [reflexivity | apply of_nonzero_not_NaN].
Qed.

Lemma findPidByProcessName_no_NaN name p pids :
  outcome (findPidByProcessName platform_ exec name p) = Normal pids ->
  Forall (fun m => isNaN m = false) pids.
Proof.
  rewrite findPidByProcessName_run.
  destruct (exec (list_command platform_ name) (world p)) as [[e|out] w];
    cbn [outcome].
  - destruct (negb (is_win32 platform_) && code_is_1 e); [|discriminate].
    intros H. inversion H. constructor.
  - intros H. inversion H. destruct (is_win32 platform_).
    + rewrite parse_tasklist_rows. apply flat_map_Forall.
      intros row. rewrite row_ids_captures.
      destruct (captures (str_match row CSV_ROW)) as [gs|]; [|constructor].
      destruct (nth_error gs 1) as [[|c f]|]; try constructor.
      apply keep_no_NaN.
    + rewrite parse_pgrep_lines. apply flat_map_Forall.
      intros line. apply keep_no_NaN.
Qed.

Lemma kill_and_log_run pid p :
  kill_and_log platform_ exec pid p
  = let (r, w) := exec (kill_command platform_ pid) (world p) in
    {| outcome := match r with
                  | ExecError e => Throw e
                  | ExecOutput _ => Normal tt
                  end;
       after := {| world := w; exitCode := exitCode p |};
       trace := Exec (kill_command platform_ pid) r
                :: match r with
                   | ExecError _ => []
                   | ExecOutput _ => [Console Log (Killed pid)]
                   end |}.
Proof.
  unfold kill_and_log, bind. rewrite killProcess_run.
  destruct (exec (kill_command platform_ pid) (world p)) as [[e|out] w];
    reflexivity.
Qed.

Lemma kill_command_cases pid :
  kill_command platform_ pid = Taskkill pid \/
  kill_command platform_ pid = Kill9 pid.
Proof. unfold kill_command. destruct (is_win32 platform_); auto. Qed.

(** The loop of the demonstration: it goes on while the commands succeed
    and ends on the first that fails. *)
Lemma demo_loop pids p :
  let r := for_of pids (kill_and_log platform_ exec) p in
  lookups (trace r) = [] /\ reported (trace r) = [] /\
  killed_lines (trace r) = succeeded (trace r) /\
  kills (trace r) = succeeded (trace r) ++ refused (trace r) /\
  match outcome r with
  | Normal _ =>
      kills (trace r) = pids /\ refused (trace r) = [] /\
      surfaced platform_ (trace r) = []
  | Throw e =>
      exists pid rest,
        pids = kills (trace r) ++ rest /\ refused (trace r) = [pid] /\
        surfaced platform_ (trace r) = [e]
  end.
Proof.
  cbv zeta. revert p. induction pids as [|pid pids IH]; intros p.
  - cbn. repeat split.
  - cbn [for_of].
    pose proof (kill_and_log_run pid p) as Hrun.
    destruct (exec (kill_command platform_ pid) (world p)) as [[e|out] w].
    + rewrite (bind_throw _ _ _ (e := e)) by (rewrite Hrun; reflexivity).
      rewrite Hrun. cbn [outcome after trace].
      unfold surfaced, swallowed.
      destruct (kill_command_cases pid) as [E|E]; rewrite E;
        cbn; repeat split; exists pid, pids; auto.
    + rewrite (bind_normal _ _ _ (a := tt)) by (rewrite Hrun; reflexivity).
      rewrite Hrun. cbn [outcome after trace].
      specialize (IH {| world := w; exitCode := exitCode p |}).
      destruct IH as [Hl [Hr [Hk [Hks Hout]]]].
      set (r := for_of pids (kill_and_log platform_ exec)
                  {| world := w; exitCode := exitCode p |}) in *.
      assert (Hhead :
               forall t,
                 lookups ((Exec (kill_command platform_ pid) (ExecOutput out)
                           :: [Console Log (Killed pid)]) ++ t) = lookups t /\
                 reported ((Exec (kill_command platform_ pid) (ExecOutput out)
                            :: [Console Log (Killed pid)]) ++ t) = reported t /\
                 killed_lines ((Exec (kill_command platform_ pid) (ExecOutput out)
                                :: [Console Log (Killed pid)]) ++ t)
                 = pid :: killed_lines t /\
                 succeeded ((Exec (kill_command platform_ pid) (ExecOutput out)
                             :: [Console Log (Killed pid)]) ++ t)
                 = pid :: succeeded t /\
                 kills ((Exec (kill_command platform_ pid) (ExecOutput out)
                         :: [Console Log (Killed pid)]) ++ t) = pid :: kills t /\
                 refused ((Exec (kill_command platform_ pid) (ExecOutput out)
                           :: [Console Log (Killed pid)]) ++ t) = refused t /\
                 surfaced platform_
                   ((Exec (kill_command platform_ pid) (ExecOutput out)
                     :: [Console Log (Killed pid)]) ++ t)
                 = surfaced platform_ t).
      { intros t. destruct (kill_command_cases pid) as [E|E]; rewrite E;
          cbn; auto 10. }
      destruct (Hhead (trace r)) as [H1 [H2 [H3 [H4 [H5 [H6 H7]]]]]].
      rewrite H1, H2, H3, H4, H5, H6, H7, Hl, Hr, Hk, Hks.
      repeat split.
      destruct (outcome r) as [u|e].
      * destruct Hout as [Ha [Hb Hc]]. rewrite <- Hks, Ha. auto.
      * destruct Hout as [pid' [rest [Ha [Hb Hc]]]].
        exists pid', rest. rewrite <- Hks. cbn [app]. rewrite <- Ha. auto.
Qed.

(** X1. For a token that is not numeric the program runs the listing
    command first, then one termination command for each identifier the
    listing resolved to, in the order resolved, and no other command. A
    rejected listing is followed by no command. *)
Theorem name_token_commands_in_order :
  forall (arg : jsstring) (p : Process World),
    test PID_TOKEN arg = false ->
    commands (trace (handle_arg platform_ exec arg p))
    = list_command platform_ arg
      :: map (kill_command platform_)
           match outcome (findPidByProcessName platform_ exec arg p) with
           | Normal pids => pids
           | Throw _ => []
           end.
Proof.
  intros arg p Ht. rewrite (handle_arg_name_trace platform_ exec arg p Ht).
  rewrite commands_app, findPidByProcessName_trace.
  destruct (outcome (findPidByProcessName platform_ exec arg p))
    as [[|pid pids]|e]; cbn [commands flat_map app map]; try reflexivity.
  change (flat_map _ ?t) with (commands t).
  destruct (kill_each_faithful platform_ exec (pid :: pids)
              (after (findPidByProcessName platform_ exec arg p))) as [_ Hc].
  rewrite Hc. reflexivity.
Qed.

(** X2. When the listing for a name is rejected, the iteration consists of
    that one failed command and one line on [console.error] naming the
    token and carrying the error; nothing is terminated and the loop goes
    on. *)
Theorem lookup_failure_reported :
  forall (arg : jsstring) (p : Process World) (e : ExecException),
    test PID_TOKEN arg = false ->
    outcome (findPidByProcessName platform_ exec arg p) = Throw e ->
    trace (handle_arg platform_ exec arg p)
    = [Exec (list_command platform_ arg) (ExecError e);
       Console Error (Failed arg e)] /\
    outcome (handle_arg platform_ exec arg p) = Normal tt.
Proof.
  intros arg p e Ht Hfind. split; [|apply handle_arg_run].
  rewrite (handle_arg_name_trace platform_ exec arg p Ht), Hfind.
  rewrite findPidByProcessName_run in Hfind |- *.
  destruct (exec (list_command platform_ arg) (world p)) as [[e'|out] w];
    cbn [outcome trace] in *.
  - destruct (negb (is_win32 platform_) && code_is_1 e'); [discriminate|].
    inversion Hfind. reflexivity.
  - discriminate.
Qed.

(** X3. Over a whole run the names looked up are exactly the tokens that
    are not numeric, each once, in command-line order, whatever failed on
    the way: nothing is cached and nothing is skipped. *)
Theorem run_lookups_are_the_names :
  forall (argv : list jsstring) (w : World),
    lookups (output (script platform_ exec argv w))
    = filter (fun a => negb (test PID_TOKEN a)) (skipn 2 argv).
Proof.
  intros argv w. rewrite script_output. apply main_lookups.
Qed.

(** X4. The console of a run is faithful. The errors on [console.error]
    are, in order, the errors of the commands that failed, except the
    listings that exit with 1 off Windows; the identifiers announced as
    terminated are, in order, those whose termination command succeeded. *)
Theorem run_console_is_faithful :
  forall (argv : list jsstring) (w : World),
    reported (output (script platform_ exec argv w))
    = surfaced platform_ (output (script platform_ exec argv w)) /\
    killed_lines (output (script platform_ exec argv w))
    = succeeded (output (script platform_ exec argv w)).
Proof.
  intros argv w. rewrite script_output.
  destruct (main_run platform_ exec argv (start w)) as [_ [Hargs Hnone]].
  destruct (skipn 2 argv) as [|arg rest] eqn:E.
  - destruct (Hnone eq_refl) as [Ht _]. rewrite Ht. split; reflexivity.
  - rewrite Hargs by discriminate. apply for_of_handle_arg_faithful.
Qed.

(** X5. No run ever hands NaN to [killProcess]: the identifiers of the
    listings pass the NaN test and [Number] of a digit string is a
    number. *)
Theorem run_never_kills_NaN :
  forall (argv : list jsstring) (w : World),
    Forall (fun pid => isNaN pid = false)
      (kills (output (script platform_ exec argv w))).
Proof.
  intros argv w. rewrite script_output.
  destruct (main_run platform_ exec argv (start w)) as [_ [Hargs Hnone]].
  destruct (skipn 2 argv) as [|arg rest] eqn:E.
  - destruct (Hnone eq_refl) as [Ht _]. rewrite Ht. constructor.
  - rewrite Hargs by discriminate. clear Hargs Hnone E.
    destruct (for_of_handle_arg_run platform_ exec (arg :: rest) (start w))
      as [_ [Hk _]].
    rewrite Hk. generalize (start w) as p. generalize (arg :: rest) as args.
    clear. intros args. induction args as [|a args IH]; intros p;
      [constructor|].
    cbn [planned_kills]. apply Forall_app. split; [|apply IH].
    unfold ids_of. destruct (test PID_TOKEN a).
    + constructor; [apply of_Z_not_NaN | constructor].
    + destruct (outcome (findPidByProcessName platform_ exec a p))
        as [pids|e] eqn:Hfind; [|constructor].
      apply (findPidByProcessName_no_NaN a p Hfind).
Qed.

(** X6. [main] never rejects, whatever [process.argv] holds and whatever
    the commands answer: the handler at the foot of the script is never
    entered. The exit status is 2 without arguments and 0 with, never 1. *)
Theorem main_never_rejects :
  forall (argv : list jsstring) (p : Process World) (w : World),
    outcome (main platform_ exec argv p) = Normal tt /\
    status (script platform_ exec argv w)
    = (if (List.length (skipn 2 argv) =? 0)%nat then 2 else 0) /\
    (forall e, ~ In (Console Error (TopLevel e))
                  (output (script platform_ exec argv w))).
Proof.
  intros argv p w. split; [apply main_run|].
  destruct (main_run platform_ exec argv (start w)) as [Ho [Hargs Hnone]].
  split.
  - unfold script. rewrite Ho. cbn [status].
    destruct (skipn 2 argv) as [|arg rest] eqn:E.
    + destruct (Hnone eq_refl) as [_ Hc]. rewrite Hc. reflexivity.
    + rewrite Hargs by discriminate.
      destruct (for_of_handle_arg_run platform_ exec (arg :: rest) (start w))
        as [_ [_ He]].
      rewrite He. reflexivity.
  - intros e Hin.
    assert (Hrep : forall t, In (Console Error (TopLevel e)) t ->
                             In e (reported t)).
    { intros t Ht. unfold reported. apply in_flat_map.
      exists (Console Error (TopLevel e)). split; [exact Ht | left; reflexivity]. }
    assert (Hno : forall t,
               In (Console Error (TopLevel e)) t ->
               exists t1 t2, t = t1 ++ Console Error (TopLevel e) :: t2)
      by (intros t Ht; apply in_split; exact Ht).
    rewrite script_output in Hin.
    destruct (skipn 2 argv) as [|arg rest] eqn:E.
    + destruct (Hnone eq_refl) as [Ht _]. rewrite Ht in Hin.
      destruct Hin as [Hin|[]]. discriminate.
    + rewrite Hargs in Hin by discriminate. clear Hargs Hnone Ho Hrep Hno.
      revert Hin. generalize (start w) as q. generalize (arg :: rest) as args.
      intros args. induction args as [|a args IH]; intros q Hin;
        [destruct Hin|].
      rewrite for_of_handle_arg_cons in Hin. apply in_app_or in Hin as [Hin|Hin];
        [|exact (IH _ Hin)].
      destruct (test PID_TOKEN a) eqn:Ht.
      * rewrite (handle_arg_numeric_trace platform_ exec a q Ht) in Hin.
        cbv zeta in Hin.
        destruct (fst (exec (kill_command platform_ (Number_of_digits a))
                         (world q)));
          cbn [In] in Hin; intuition discriminate.
      * rewrite (handle_arg_name_trace platform_ exec a q Ht) in Hin.
        rewrite findPidByProcessName_trace in Hin.
        apply in_app_or in Hin as [Hin|Hin];
          [destruct Hin as [Hin|[]]; discriminate|].
        destruct (outcome (findPidByProcessName platform_ exec a q))
          as [[|pid pids]|e'].
        -- destruct Hin as [Hin|[]]; discriminate.
        -- destruct Hin as [Hin|Hin]; [discriminate|].
           revert Hin.
           generalize (after (findPidByProcessName platform_ exec a q)).
           generalize (pid :: pids) as l. clear.
           intros l. induction l as [|x l IHl]; intros q Hin;
             [destruct Hin|].
           unfold kill_each in Hin. cbn [for_of] in Hin.
           destruct (kill_one_run platform_ exec x q) as [Ho _].
           rewrite (bind_normal _ _ _ Ho) in Hin. cbn [trace] in Hin.
           apply in_app_or in Hin as [Hin|Hin]; [|exact (IHl _ Hin)].
           unfold kill_one, try_catch, bind in Hin.
           rewrite killProcess_run in Hin.
           destruct (exec (kill_command platform_ x) (world q)) as [[e1|o1] w1];
             cbn in Hin; intuition discriminate.
        -- destruct Hin as [Hin|[]]; discriminate.
Qed.

(** X7. One run over the tokens [a] followed by the tokens [b] prints and
    does what a run over [a] followed by a run over [b] would, the second
    run starting in the world the first one left; nothing is carried from
    token to token but the world. *)
Theorem batch_is_a_sequence_of_runs :
  forall (exe scr exe' scr' : jsstring) (a b : list jsstring) (w : World),
    a <> [] -> b <> [] ->
    let first := script platform_ exec (exe :: scr :: a) w in
    let second := script platform_ exec (exe' :: scr' :: b) (final first) in
    output (script platform_ exec (exe :: scr :: a ++ b) w)
    = output first ++ output second /\
    final (script platform_ exec (exe :: scr :: a ++ b) w) = final second /\
    status (script platform_ exec (exe :: scr :: a ++ b) w) = status second.
Proof.
  intros exe scr exe' scr' a b w Ha Hb. cbv zeta.
  destruct a as [|a0 a]; [congruence|]. destruct b as [|b0 b]; [congruence|].
  cbn [app]. rewrite !script_with_args. cbn [output final status].
  change (a0 :: a ++ b0 :: b) with ((a0 :: a) ++ b0 :: b).
  rewrite for_of_handle_arg_app. cbv zeta. cbn [trace after world].
  destruct (for_of_handle_arg_run platform_ exec (a0 :: a) (start w))
    as [_ [_ He]].
  assert (Hstart : after (for_of (a0 :: a) (handle_arg platform_ exec) (start w))
                   = start (world (after (for_of (a0 :: a)
                                            (handle_arg platform_ exec)
                                            (start w))))).
  { destruct (after (for_of (a0 :: a) (handle_arg platform_ exec) (start w)))
      as [w1 c1]. cbn in He |- *. subst c1. reflexivity. }
  rewrite <- Hstart. auto.
Qed.

(** X8. The listing of [pgrep] is read line by line: the identifiers of an
    output cut at a line feed are those of its first part followed by those
    of its second part. White space and blank lines around either part,
    which [trim] would remove, make no difference. *)
Theorem pgrep_listing_cut :
  forall a b : jsstring,
    parse_pgrep (a ++ LF :: b) = parse_pgrep a ++ parse_pgrep b.
Proof.
  intros a b. rewrite !parse_pgrep_untrimmed, split_lines_app_LF.
  apply flat_map_app.
Qed.

(** X9. Off Windows, a listing that prints one identifier per line, each
    a non-empty run of digits followed by a line feed, is read back whole:
    the resolver answers the numbers written, in the order printed. *)
Theorem pgrep_output_read_back :
  forall (name : jsstring) (p : Process World) (ids : list jsstring) w',
    platform_ <> win32 ->
    exec (Pgrep name) (world p) = (ExecOutput (pgrep_output ids), w') ->
    Forall (fun d : jsstring => d <> [] /\ all_digits d = true) ids ->
    outcome (findPidByProcessName platform_ exec name p)
    = Normal (map Number_of_digits ids).
Proof.
  intros name p ids w' Hp Hexec Hids.
  rewrite findPidByProcessName_run. unfold list_command.
  rewrite (is_win32_false Hp), Hexec. cbn [outcome]. f_equal.
  rewrite parse_pgrep_untrimmed, (split_lines_pgrep_output Hids).
  rewrite flat_map_app. cbn [flat_map]. rewrite app_nil_r. clear Hexec.
  induction Hids as [|d ids [Hne Hd] _ IH]; [reflexivity|].
  cbn [flat_map map]. rewrite (keep_parseInt10_digits Hne Hd), IH.
  reflexivity.
Qed.

(** X10. On Windows, a table made of a title row and well-formed rows, each
    row after a line feed, with white space before and after, is read back
    whole: the resolver answers the number written in the second field of
    every row, in order. The title row is any line without a line feed that
    begins with something other than white space. *)
Theorem tasklist_output_read_back :
  forall (name : jsstring) (p : Process World) (lead : jsstring) (h : char)
         (hs : jsstring) (rows : list table_row) (trail : jsstring) w',
    platform_ = win32 ->
    exec (Tasklist name) (world p)
    = (ExecOutput (tasklist_output lead (h :: hs) rows trail), w') ->
    all_space lead = true -> all_space trail = true ->
    is_space h = false -> ~ In LF (h :: hs) ->
    Forall well_formed_row rows ->
    outcome (findPidByProcessName platform_ exec name p)
    = Normal (map (fun r => Number_of_digits (pid_text r)) rows).
Proof.
  intros name p lead h hs rows trail w' Hp Hexec Hlead Htrail Hh Hhs Hrows.
  rewrite findPidByProcessName_run. unfold list_command.
  rewrite (is_win32_true Hp), Hexec. cbn [outcome]. f_equal.
  rewrite parse_tasklist_trimStart. unfold tasklist_output.
  rewrite trimStart_spaces by exact Hlead.
  cbn [app trimStart]. rewrite Hh.
  change (h :: hs ++ ?x ++ trail) with ((h :: hs) ++ x ++ trail).
  rewrite app_assoc, rows_trailing by exact Htrail.
  rewrite split_lines_rows; [cbn [slice1 tl] | exact Hhs |].
  - clear Hexec. induction Hrows as [|r rows [H1 [H3 [Hne [Hd Hlf]]]] _ IH];
      [reflexivity|].
    cbn [map flat_map]. rewrite IH.
    unfold render_row.
    rewrite (@row_ids_shape _ [] (image r) (pid_text r) (session r)
               (remainder r)).
    + rewrite keep_parseInt10_digits by assumption. reflexivity.
    + split; [reflexivity|]. split; [exact H1|]. split; [|exact H3].
      split; [exact Hne | apply digits_quote_free; exact Hd].
    + apply leftmost_nil.
  - apply Forall_impl with (P := well_formed_row); [|exact Hrows].
    intros r [_ [_ [_ [_ Hlf]]]]. exact Hlf.
Qed.

(** X11. On Windows, an output of a single line, with white space around
    it, resolves to the empty array whatever the line says: the line is
    taken for the title row. So the one-line notice that [tasklist] prints
    when nothing matches means not found. *)
Theorem tasklist_single_line_is_empty :
  forall (name : jsstring) (p : Process World) (lead line trail : jsstring) w',
    platform_ = win32 ->
    exec (Tasklist name) (world p) = (ExecOutput (lead ++ line ++ trail), w') ->
    all_space lead = true -> all_space trail = true -> ~ In LF line ->
    outcome (findPidByProcessName platform_ exec name p) = Normal [].
Proof.
  intros name p lead line trail w' Hp Hexec Hlead Htrail Hline.
  rewrite findPidByProcessName_run. unfold list_command.
  rewrite (is_win32_true Hp), Hexec. cbn [outcome]. f_equal.
  rewrite parse_tasklist_trimStart, trimStart_spaces by exact Hlead.
  destruct (trimStart line) as [|c r] eqn:E.
  - rewrite trimStart_spaces by (apply trimStart_nil_all_space; exact E).
    rewrite trimStart_all_space by exact Htrail. reflexivity.
  - rewrite trimStart_app_keep by (rewrite E; discriminate).
    rewrite rows_trailing by exact Htrail.
    rewrite split_lines_no_LF; [reflexivity|].
    intros Hin. apply Hline. apply In_trimStart. exact Hin.
Qed.

(** The lines and the commands of the demonstration. *)
Lemma demo_trace p :
  outcome (demo platform_ exec p) = Normal tt /\
  trace (demo platform_ exec p)
  = trace (findPidByProcessName platform_ exec DEMO_NAME p)
    ++ match outcome (findPidByProcessName platform_ exec DEMO_NAME p) with
       | Normal [] => [Console Log (NotFound DEMO_NAME)]
       | Normal pids =>
           let r := for_of pids (kill_and_log platform_ exec)
                      (after (findPidByProcessName platform_ exec DEMO_NAME p))
           in
           Console Log (Found DEMO_NAME pids)
           :: trace r ++ match outcome r with
                         | Normal _ => []
                         | Throw e => [Console Error (TopLevel e)]
                         end
       | Throw e => [Console Error (TopLevel e)]
       end.
Proof.
  unfold demo, try_catch. cbv zeta.
  destruct (outcome (findPidByProcessName platform_ exec DEMO_NAME p))
    as [pids|e] eqn:Hfind.
  - rewrite (bind_normal _ _ _ Hfind). cbn [outcome after trace].
    destruct pids as [|pid pids]; cbn [List.length Nat.eqb].
    + split; reflexivity.
    + rewrite (bind_normal (console Log (Found DEMO_NAME (pid :: pids))) _ _
                 (a := tt) eq_refl).
      cbn [console outcome after trace].
      destruct (outcome (for_of (pid :: pids) (kill_and_log platform_ exec)
                           (after (findPidByProcessName platform_ exec
                                     DEMO_NAME p)))) as [[]|e].
      * cbn [outcome trace]. rewrite app_nil_r. split; reflexivity.
      * cbn [outcome trace console app]. split; [reflexivity|].
        rewrite <- app_assoc. reflexivity.
  - rewrite (bind_throw _ _ _ Hfind). split; reflexivity.
Qed.

Lemma listing_event_quiet name r t :
  kills (Exec (list_command platform_ name) r :: t) = kills t /\
  succeeded (Exec (list_command platform_ name) r :: t) = succeeded t /\
  refused (Exec (list_command platform_ name) r :: t) = refused t.
Proof.
  unfold list_command. destruct (is_win32 platform_); destruct r; auto.
Qed.

Lemma top_level_line_quiet t e :
  kills (t ++ [Console Error (TopLevel e)]) = kills t /\
  succeeded (t ++ [Console Error (TopLevel e)]) = succeeded t /\
  refused (t ++ [Console Error (TopLevel e)]) = refused t.
Proof.
  unfold kills, succeeded, refused. rewrite !flat_map_app. cbn [flat_map].
  rewrite !app_nil_r. auto.
Qed.

(** X12. The demonstration never raises. It runs its listing, for its one
    fixed name, before anything else, looks nothing else up, and its
    console is faithful in the same sense as that of [main]. *)
Theorem demo_never_raises :
  forall p : Process World,
    outcome (demo platform_ exec p) = Normal tt /\
    lookups (trace (demo platform_ exec p)) = [DEMO_NAME] /\
    (exists r t, trace (demo platform_ exec p)
                 = Exec (list_command platform_ DEMO_NAME) r :: t) /\
    faithful platform_ (trace (demo platform_ exec p)).
Proof.
  intros p. destruct (demo_trace p) as [Ho Ht]. split; [exact Ho|].
  rewrite Ht. clear Ho Ht.
  rewrite findPidByProcessName_run.
  destruct (exec (list_command platform_ DEMO_NAME) (world p))
    as [[e|out] w]; cbn [outcome after trace].
  - split; [|split; [cbn [app]; eexists; eexists; reflexivity|]].
    + rewrite lookups_app, lookups_list_command.
      destruct (negb (is_win32 platform_) && code_is_1 e); reflexivity.
    + unfold faithful, surfaced, swallowed, list_command.
      destruct (is_win32 platform_); destruct (code_is_1 e) eqn:Hc;
        cbn; rewrite ?Hc; cbn; auto.
  - set (pids := if is_win32 platform_ then parse_tasklist out
                 else parse_pgrep out).
    set (q := {| world := w; exitCode := exitCode p |}).
    assert (Hhead : faithful platform_
                      [Exec (list_command platform_ DEMO_NAME) (ExecOutput out)]).
    { unfold faithful, surfaced, list_command.
      destruct (is_win32 platform_); cbn; auto. }
    destruct pids as [|pid pids].
    + split; [|split; [cbn [app]; eexists; eexists; reflexivity|]].
      * rewrite lookups_app, lookups_list_command. reflexivity.
      * apply faithful_app; [exact Hhead | split; reflexivity].
    + cbv zeta.
      pose proof (demo_loop (pid :: pids) q) as Hloop. cbv zeta in Hloop.
      destruct Hloop as [Hl [Hr [Hk [_ Hout]]]].
      set (r := for_of (pid :: pids) (kill_and_log platform_ exec) q) in *.
      split; [|split; [cbn [app]; eexists; eexists; reflexivity|]].
      * rewrite lookups_app, lookups_list_command.
        change (Console Log (Found DEMO_NAME (pid :: pids)) :: ?t)
          with ([Console Log (Found DEMO_NAME (pid :: pids))] ++ t).
        rewrite !lookups_app, Hl.
        destruct (outcome r); reflexivity.
      * apply faithful_app; [exact Hhead|].
        apply (faithful_app
                 (t1 := [Console Log (Found DEMO_NAME (pid :: pids))]));
          [split; reflexivity|].
        unfold faithful in *.
        destruct (outcome r) as [u|e].
        -- destruct Hout as [_ [_ Hs]]. rewrite app_nil_r. split; congruence.
        -- destruct Hout as [pid' [rest [_ [_ Hs]]]].
           unfold reported, surfaced, killed_lines, succeeded in *.
           rewrite !flat_map_app, Hr, Hs, Hk. cbn. rewrite app_nil_r. auto.
Qed.

(** X13. The loop of the demonstration has no [try] of its own: it stops
    at the first termination that is refused. The identifiers attempted
    are a prefix of those resolved; every attempt but the last succeeded;
    a refusal is the last attempt; and all are attempted only when none is
    refused. *)
Theorem demo_stops_at_first_refusal :
  forall (p : Process World) (pids : list number),
    outcome (findPidByProcessName platform_ exec DEMO_NAME p) = Normal pids ->
    exists rest,
      pids = kills (trace (demo platform_ exec p)) ++ rest /\
      kills (trace (demo platform_ exec p))
      = succeeded (trace (demo platform_ exec p))
        ++ refused (trace (demo platform_ exec p)) /\
      (List.length (refused (trace (demo platform_ exec p))) <= 1)%nat /\
      (refused (trace (demo platform_ exec p)) = [] -> rest = []).
Proof.
  intros p pids Hfind. destruct (demo_trace p) as [_ Ht]. rewrite Ht.
  rewrite findPidByProcessName_trace, Hfind. cbn [app].
  set (ev := fst (exec (list_command platform_ DEMO_NAME) (world p))).
  destruct pids as [|pid pids].
  - exists []. destruct (listing_event_quiet DEMO_NAME ev
                           [Console Log (NotFound DEMO_NAME)])
      as [H1 [H2 H3]].
    rewrite H1, H2, H3. cbn. auto.
  - cbv zeta.
    set (q := after (findPidByProcessName platform_ exec DEMO_NAME p)).
    pose proof (demo_loop (pid :: pids) q) as Hloop. cbv zeta in Hloop.
    destruct Hloop as [_ [_ [_ [Hks Hout]]]].
    set (r := for_of (pid :: pids) (kill_and_log platform_ exec) q) in *.
    set (tail := match outcome r with
                 | Normal _ => []
                 | Throw e => [Console Error (TopLevel e)]
                 end).
    assert (Hobs : kills (trace r ++ tail) = kills (trace r) /\
                   succeeded (trace r ++ tail) = succeeded (trace r) /\
                   refused (trace r ++ tail) = refused (trace r)).
    { unfold tail. destruct (outcome r) as [u|e];
        [rewrite app_nil_r; auto | apply top_level_line_quiet]. }
    destruct Hobs as [O1 [O2 O3]].
    destruct (listing_event_quiet DEMO_NAME ev
                (Console Log (Found DEMO_NAME (pid :: pids))
                 :: trace r ++ tail)) as [H1 [H2 H3]].
    rewrite H1, H2, H3.
    change (kills (Console Log (Found DEMO_NAME (pid :: pids))
                   :: trace r ++ tail)) with (kills (trace r ++ tail)).
    change (succeeded (Console Log (Found DEMO_NAME (pid :: pids))
                       :: trace r ++ tail)) with (succeeded (trace r ++ tail)).
    change (refused (Console Log (Found DEMO_NAME (pid :: pids))
                     :: trace r ++ tail)) with (refused (trace r ++ tail)).
    rewrite O1, O2, O3.
    destruct (outcome r) as [u|e].
    + destruct Hout as [Ha [Hb _]]. exists []. rewrite app_nil_r.
      rewrite Hb in Hks |- *. cbn [List.length]. repeat split; auto.
    + destruct Hout as [pid' [rest [Ha [Hb _]]]]. exists rest.
      rewrite Hb in Hks |- *. cbn [List.length]. repeat split; auto.
      discriminate.
Qed.

(** X14. For a numeric token the program prints the announcement, runs the
    one termination command, then prints one line: the success line when
    the command succeeded, else the error line naming the token and
    carrying the error of the command, exit code 1 off Windows included. *)
Theorem numeric_token_lines :
  forall (arg : jsstring) (p : Process World),
    test PID_TOKEN arg = true ->
    trace (handle_arg platform_ exec arg p)
    = [Console Log (Killing (Number_of_digits arg));
       Exec (kill_command platform_ (Number_of_digits arg))
         (fst (exec (kill_command platform_ (Number_of_digits arg)) (world p)));
       match fst (exec (kill_command platform_ (Number_of_digits arg))
                    (world p)) with
       | ExecOutput _ => Console Log (Killed (Number_of_digits arg))
       | ExecError e => Console Error (Failed arg e)
       end].
Proof.
  intros arg p Ht. apply (handle_arg_numeric_trace platform_ exec arg p Ht).
Qed.

End Further.

(** ** The further properties on concrete runs *)

Lemma no_LF_by_test (l : jsstring) :
  forallb (fun c => negb (c =? LF)%N) l = true -> ~ In LF l.
Proof.
  rewrite forallb_forall. intros H Hin. specialize (H LF Hin). discriminate.
Qed.

Lemma name_token_commands_in_order_witness :
  test PID_TOKEN (js "chrome") = false /\
  commands (trace (handle_arg linux (listing (js "100
200
")) (js "chrome") (start tt)))
  = [Pgrep (js "chrome"); Kill9 (Int 100); Kill9 (Int 200)].
Proof.
  split; [reflexivity|].
  apply (@name_token_commands_in_order unit linux (listing (js "100
200
")) (js "chrome") (start tt) eq_refl).
Defined.

Lemma lookup_failure_reported_witness :
  test PID_TOKEN (js "ghost") = false /\
  outcome (findPidByProcessName linux (failing 2) (js "ghost") (start tt))
  = Throw (exit_with 2) /\
  trace (handle_arg linux (failing 2) (js "ghost") (start tt))
  = [Exec (Pgrep (js "ghost")) (ExecError (exit_with 2));
     Console Error (Failed (js "ghost") (exit_with 2))] /\
  outcome (handle_arg linux (failing 2) (js "ghost") (start tt)) = Normal tt.
Proof.
  split; [reflexivity|]. split; [reflexivity|].
  apply (@lookup_failure_reported unit linux (failing 2) (js "ghost")
           (start tt) (exit_with 2) eq_refl eq_refl).
Defined.

Lemma batch_is_a_sequence_of_runs_witness :
  [js "42"] <> [] /\ [js "chrome"] <> [] /\
  output (script linux stubborn
            (js "bun" :: js "killer.ts" :: [js "42"] ++ [js "chrome"]) 0%nat)
  = output (script linux stubborn [js "bun"; js "killer.ts"; js "42"] 0%nat)
    ++ output (script linux stubborn [js "bun"; js "killer.ts"; js "chrome"]
                 (final (script linux stubborn
                           [js "bun"; js "killer.ts"; js "42"] 0%nat))).
Proof.
  split; [discriminate|]. split; [discriminate|].
  apply (proj1 (@batch_is_a_sequence_of_runs nat linux stubborn
                  (js "bun") (js "killer.ts") (js "bun") (js "killer.ts")
                  [js "42"] [js "chrome"] 0%nat
                  ltac:(discriminate) ltac:(discriminate))).
Defined.

Lemma pgrep_output_read_back_witness :
  linux <> win32 /\
  listing (pgrep_output [js "100"; js "200"]) (Pgrep (js "node"))
    (world (start tt))
  = (ExecOutput (pgrep_output [js "100"; js "200"]), tt) /\
  Forall (fun d : jsstring => d <> [] /\ all_digits d = true)
    [js "100"; js "200"] /\
  outcome (findPidByProcessName linux
             (listing (pgrep_output [js "100"; js "200"])) (js "node")
             (start tt))
  = Normal [Int 100; Int 200].
Proof.
  assert (H : Forall (fun d : jsstring => d <> [] /\ all_digits d = true)
                [js "100"; js "200"])
    by (repeat constructor; discriminate).
  split; [discriminate|]. split; [reflexivity|]. split; [exact H|].
  apply (@pgrep_output_read_back unit linux
           (listing (pgrep_output [js "100"; js "200"])) (js "node")
           (start tt) [js "100"; js "200"] tt ltac:(discriminate) eq_refl H).
Defined.

Lemma sample_rows_well_formed : Forall well_formed_row sample_rows.
Proof.
  repeat constructor; try discriminate; apply no_LF_by_test; reflexivity.
Defined.

Lemma tasklist_output_read_back_witness :
  win32 = win32 /\
  listing (tasklist_output [13; 10]%N (QUOTE :: TITLE_REST) sample_rows
             [13; 10]%N)
    (Tasklist (js "notepad")) (world (start tt))
  = (ExecOutput (tasklist_output [13; 10]%N (QUOTE :: TITLE_REST) sample_rows
                   [13; 10]%N), tt) /\
  all_space [13; 10]%N = true /\ is_space QUOTE = false /\
  ~ In LF (QUOTE :: TITLE_REST) /\
  Forall well_formed_row sample_rows /\
  outcome (findPidByProcessName win32
             (listing (tasklist_output [13; 10]%N (QUOTE :: TITLE_REST)
                         sample_rows [13; 10]%N))
             (js "notepad") (start tt))
  = Normal [Int 100; Int 200].
Proof.
  assert (Hlf : ~ In LF (QUOTE :: TITLE_REST))
    by (apply no_LF_by_test; reflexivity).
  split; [reflexivity|]. split; [reflexivity|]. split; [reflexivity|].
  split; [reflexivity|]. split; [exact Hlf|].
  split; [exact sample_rows_well_formed|].
  apply (@tasklist_output_read_back unit win32
           (listing (tasklist_output [13; 10]%N (QUOTE :: TITLE_REST)
                       sample_rows [13; 10]%N))
           (js "notepad") (start tt) [13; 10]%N QUOTE TITLE_REST sample_rows
           [13; 10]%N tt eq_refl eq_refl eq_refl eq_refl eq_refl Hlf
           sample_rows_well_formed).
Defined.

Lemma tasklist_single_line_is_empty_witness :
  win32 = win32 /\
  listing ([] ++ NOTICE ++ [13; 10]%N) (Tasklist (js "ghost"))
    (world (start tt))
  = (ExecOutput ([] ++ NOTICE ++ [13; 10]%N), tt) /\
  all_space [] = true /\ all_space [13; 10]%N = true /\ ~ In LF NOTICE /\
  outcome (findPidByProcessName win32 (listing ([] ++ NOTICE ++ [13; 10]%N))
             (js "ghost") (start tt))
  = Normal [].
Proof.
  assert (Hlf : ~ In LF NOTICE) by (apply no_LF_by_test; reflexivity).
  split; [reflexivity|]. split; [reflexivity|]. split; [reflexivity|].
  split; [reflexivity|]. split; [exact Hlf|].
  apply (@tasklist_single_line_is_empty unit win32
           (listing ([] ++ NOTICE ++ [13; 10]%N)) (js "ghost") (start tt)
           [] NOTICE [13; 10]%N tt eq_refl eq_refl eq_refl eq_refl Hlf).
Defined.

Lemma demo_stops_at_first_refusal_witness :
  outcome (findPidByProcessName linux (listing (js "100
200
")) DEMO_NAME (start tt))
  = Normal [Int 100; Int 200] /\
  exists rest,
    [Int 100; Int 200]
    = kills (trace (demo linux (listing (js "100
200
")) (start tt))) ++ rest /\
    kills (trace (demo linux (listing (js "100
200
")) (start tt)))
    = succeeded (trace (demo linux (listing (js "100
200
")) (start tt)))
      ++ refused (trace (demo linux (listing (js "100
200
")) (start tt))) /\
    (List.length (refused (trace (demo linux (listing (js "100
200
")) (start tt)))) <= 1)%nat /\
    (refused (trace (demo linux (listing (js "100
200
")) (start tt))) = [] -> rest = []).
Proof.
  split; [reflexivity|].
  apply (@demo_stops_at_first_refusal unit linux (listing (js "100
200
")) (start tt) [Int 100; Int 200] eq_refl).
Defined.

Lemma numeric_token_lines_witness :
  test PID_TOKEN (js "1234") = true /\
  trace (handle_arg linux (failing 1) (js "1234") (start tt))
  = [Console Log (Killing (Int 1234));
     Exec (Kill9 (Int 1234)) (ExecError (exit_with 1));
     Console Error (Failed (js "1234") (exit_with 1))].
Proof.
  split; [reflexivity|].
  apply (@numeric_token_lines unit linux (failing 1) (js "1234") (start tt)
           eq_refl).
Defined.

(** The demonstration beside [main] on a machine that refuses every
    termination: the first stops after one attempt, the second goes on. *)
Example demo_beside_main :
  kills (trace (demo linux (listing (js "100
200
")) (start tt))) = [Int 100] /\
  kills (trace (kill_each linux (listing (js "100
200
")) [Int 100; Int 200] (start tt))) = [Int 100; Int 200].
Proof. split; reflexivity. Qed.
